(** * BeamLink firmware: protocol engine and reactive state store

    A shallow embedding of the two stateful cores of the firmware,

    - [BeamLink.cpp] / [BeamLink.h]: the BLE protocol engine (begin / end,
      notify, the connect, disconnect and write callbacks, statistics);
    - [NexState.h]: the typed key/value store with change detection,

    followed by the properties of the design document that are about them.

    Conventions.  A [uint32_t] counter is a [Z] whose increment wraps at
    [2^32]; [uint16_t] values wrap at [2^16]; a [std::string] is a Rocq
    [string] (a sequence of bytes); a nullable pointer is a [bool] telling
    whether it is non-null; [millis()] is an argument [now] of the operations
    that read the clock.  The NimBLE stack is an explicit record [Env] that the
    engine's operations transform together with the engine's own fields, and
    the outcome of every fallible stack call is an input ([StackResults]).
    Console logging of the engine ([Serial.printf]) changes no state and is
    left out; the console output of the store is its main effect and is
    modelled as a list of events. *)

From Stdlib Require Import ZArith String Ascii List Bool Lia.
From stdpp Require Import base decidable option list gmap fin_maps strings pretty.

Local Open Scope string_scope.
Local Open Scope Z_scope.

(** ** Machine integers *)

Definition UINT32_MAX : Z := 4294967295.
Definition UINT16_MAX : Z := 65535.

Definition wrap32 (z : Z) : Z := z mod 2 ^ 32.
Definition wrap16 (z : Z) : Z := z mod 2 ^ 16.

(** [n++] on a [uint32_t] *)
Definition incr32 (n : Z) : Z := wrap32 (n + 1).

Definition in_uint32 (z : Z) : Prop := 0 <= z <= UINT32_MAX.
Definition in_uint16 (z : Z) : Prop := 0 <= z <= UINT16_MAX.

(** [std::string::length] *)
Definition strlen (s : string) : Z := Z.of_nat (String.length s).

(** [s.substr(0, n)]: the first [n] bytes of [s], all of [s] when it is
    shorter. *)
Definition substr0 (n : Z) (s : string) : string :=
  String.substring 0 (Z.to_nat n) s.

Module BeamLink.

(** The handler registered with [onMessage].  It receives the inbound text
    and a reply function; what the engine sees of it is the sequence of
    texts it passes to [reply]. *)
Definition MessageHandler : Type := string -> list string.

(** The fields of [class BeamLink]. *)
Record BeamLink : Type := mkBeamLink {
  pServer : bool;
  pChar : bool;
  messageHandler : option MessageHandler;
  deviceConnected : bool;
  initialized : bool;
  deviceName : string;
  serviceUuid : string;
  characteristicUuid : string;
  messagesReceived : Z;
  messagesSent : Z;
  errorCount : Z;
  startTime : Z
}.

(** The part of the NimBLE stack the engine talks to ([bleDevice] is the
    name given to [NimBLEDevice::init], [None] before it and after
    [deinit]), and two logs: the frames handed to [pChar->notify()] and the
    texts handed to the message handler. *)
Record Env : Type := mkEnv {
  bleDevice : option string;
  advertising : bool;
  mtu : Z;
  txPower : Z;
  advIntervalUnits : Z;
  charValue : string;
  notified : list string;
  handlerCalls : list string
}.

(** What the stack answers to the fallible calls of [begin]. *)
Record StackResults : Type := mkStackResults {
  r_createServer : bool;
  r_createService : bool;
  r_createCharacteristic : bool;
  r_serviceStart : bool;
  r_getAdvertising : bool;
  r_startAdvertising : bool
}.

Definition BMLK_SERVICE_UUID : string := "12345678-1234-1234-1234-1234567890ab".
Definition BMLK_CHARACTERISTIC_UUID : string := "12345678-1234-1234-1234-1234567890ac".

(** [BeamLink::BeamLink()] and the in-class initialisers. *)
Definition BeamLink_new : BeamLink :=
  {| pServer := false; pChar := false; messageHandler := None;
     deviceConnected := false; initialized := false;
     deviceName := EmptyString; serviceUuid := EmptyString;
     characteristicUuid := EmptyString;
     messagesReceived := 0; messagesSent := 0; errorCount := 0;
     startTime := 0 |}.

(** *** Field updates *)

Definition set_deviceConnected (b : bool) (s : BeamLink) : BeamLink :=
  mkBeamLink (pServer s) (pChar s) (messageHandler s) b (initialized s)
    (deviceName s) (serviceUuid s) (characteristicUuid s)
    (messagesReceived s) (messagesSent s) (errorCount s) (startTime s).

Definition set_errorCount (n : Z) (s : BeamLink) : BeamLink :=
  mkBeamLink (pServer s) (pChar s) (messageHandler s) (deviceConnected s)
    (initialized s) (deviceName s) (serviceUuid s) (characteristicUuid s)
    (messagesReceived s) (messagesSent s) n (startTime s).

Definition set_messagesSent (n : Z) (s : BeamLink) : BeamLink :=
  mkBeamLink (pServer s) (pChar s) (messageHandler s) (deviceConnected s)
    (initialized s) (deviceName s) (serviceUuid s) (characteristicUuid s)
    (messagesReceived s) n (errorCount s) (startTime s).

Definition set_messagesReceived (n : Z) (s : BeamLink) : BeamLink :=
  mkBeamLink (pServer s) (pChar s) (messageHandler s) (deviceConnected s)
    (initialized s) (deviceName s) (serviceUuid s) (characteristicUuid s)
    n (messagesSent s) (errorCount s) (startTime s).

Definition set_messageHandler (h : option MessageHandler) (s : BeamLink) : BeamLink :=
  mkBeamLink (pServer s) (pChar s) h (deviceConnected s)
    (initialized s) (deviceName s) (serviceUuid s) (characteristicUuid s)
    (messagesReceived s) (messagesSent s) (errorCount s) (startTime s).

Definition set_names (n su cu : string) (s : BeamLink) : BeamLink :=
  mkBeamLink (pServer s) (pChar s) (messageHandler s) (deviceConnected s)
    (initialized s) n su cu
    (messagesReceived s) (messagesSent s) (errorCount s) (startTime s).

Definition set_pServer (b : bool) (s : BeamLink) : BeamLink :=
  mkBeamLink b (pChar s) (messageHandler s) (deviceConnected s)
    (initialized s) (deviceName s) (serviceUuid s) (characteristicUuid s)
    (messagesReceived s) (messagesSent s) (errorCount s) (startTime s).

Definition set_pChar (b : bool) (s : BeamLink) : BeamLink :=
  mkBeamLink (pServer s) b (messageHandler s) (deviceConnected s)
    (initialized s) (deviceName s) (serviceUuid s) (characteristicUuid s)
    (messagesReceived s) (messagesSent s) (errorCount s) (startTime s).

Definition env_set_advertising (b : bool) (e : Env) : Env :=
  mkEnv (bleDevice e) b (mtu e) (txPower e) (advIntervalUnits e) (charValue e)
    (notified e) (handlerCalls e).

Definition env_set_mtu (m : Z) (e : Env) : Env :=
  mkEnv (bleDevice e) (advertising e) m (txPower e) (advIntervalUnits e) (charValue e)
    (notified e) (handlerCalls e).

Definition env_set_txPower (p : Z) (e : Env) : Env :=
  mkEnv (bleDevice e) (advertising e) (mtu e) p (advIntervalUnits e) (charValue e)
    (notified e) (handlerCalls e).

Definition env_set_advIntervalUnits (u : Z) (e : Env) : Env :=
  mkEnv (bleDevice e) (advertising e) (mtu e) (txPower e) u (charValue e)
    (notified e) (handlerCalls e).

Definition env_set_bleDevice (d : option string) (e : Env) : Env :=
  mkEnv d (advertising e) (mtu e) (txPower e) (advIntervalUnits e) (charValue e)
    (notified e) (handlerCalls e).

(** [pChar->setValue(v)] *)
Definition char_setValue (v : string) (e : Env) : Env :=
  mkEnv (bleDevice e) (advertising e) (mtu e) (txPower e) (advIntervalUnits e) v
    (notified e) (handlerCalls e).

(** [pChar->notify()]: the characteristic's current value goes out. *)
Definition char_notify (e : Env) : Env :=
  mkEnv (bleDevice e) (advertising e) (mtu e) (txPower e) (advIntervalUnits e) (charValue e)
    (notified e ++ [charValue e]) (handlerCalls e).

Definition env_log_handler (msg : string) (e : Env) : Env :=
  mkEnv (bleDevice e) (advertising e) (mtu e) (txPower e) (advIntervalUnits e) (charValue e)
    (notified e) (handlerCalls e ++ [msg]).

(** [NimBLEDevice::startAdvertising()]: [ok] is the stack's answer. *)
Definition nimble_startAdvertising (ok : bool) (e : Env) : Env :=
  if ok then env_set_advertising true e else e.

(** *** Getters *)

Definition isConnected (s : BeamLink) : bool := deviceConnected s.
Definition getDeviceName (s : BeamLink) : string := deviceName s.
Definition getMessagesReceived (s : BeamLink) : Z := messagesReceived s.
Definition getMessagesSent (s : BeamLink) : Z := messagesSent s.
Definition getErrors (s : BeamLink) : Z := errorCount s.

Definition getMTU (s : BeamLink) (e : Env) : Z :=
  if negb (initialized s) then 23 else mtu e.

(** [millis() - startTime] on [unsigned long] (32 bits on the ESP32). *)
Definition getUptime (now : Z) (s : BeamLink) : Z :=
  if negb (initialized s) then 0 else wrap32 (now - startTime s).

(** *** [BeamLink::notify] *)

Definition notify (msg : string) (s : BeamLink) (e : Env) : bool * BeamLink * Env :=
  if negb (initialized s) || negb (pChar s) || negb (deviceConnected s) then
    (false, set_errorCount (incr32 (errorCount s)) s, e)
  else if strlen msg =? 0 then
    (false, set_errorCount (incr32 (errorCount s)) s, e)
  else
    let maxSize := wrap16 (mtu e - 3) in
    let '(s1, e1) :=
      if strlen msg >? maxSize then
        (set_errorCount (incr32 (errorCount s)) s,
         char_setValue (substr0 maxSize msg) e)
      else (s, char_setValue msg e) in
    let e2 := char_notify e1 in
    (true, set_messagesSent (incr32 (messagesSent s1)) s1, e2).

(** *** [BeamLink::onMessage] *)

Definition onMessage (handler : option MessageHandler) (s : BeamLink) : BeamLink :=
  set_messageHandler handler s.

(** *** [BeamLink::resetStats] *)

Definition resetStats (now : Z) (s : BeamLink) : BeamLink :=
  mkBeamLink (pServer s) (pChar s) (messageHandler s) (deviceConnected s)
    (initialized s) (deviceName s) (serviceUuid s) (characteristicUuid s)
    0 0 0 now.

(** *** The stack's callbacks

    The callback objects hold the [this] pointer of the engine that built
    them, which is never null: their [if (beamLink)] guards always pass. *)

(** [ServerCallbacks::onConnect] *)
Definition onConnect (s : BeamLink) (e : Env) : BeamLink * Env :=
  (set_deviceConnected true s, e).

(** [ServerCallbacks::onDisconnect]; [adv_ok] is what the stack answers to
    [NimBLEDevice::startAdvertising()], which the callback does not look at. *)
Definition onDisconnect (adv_ok : bool) (s : BeamLink) (e : Env) : BeamLink * Env :=
  (set_deviceConnected false s, nimble_startAdvertising adv_ok e).

(** The reply closure of [onWrite] calls [notify] and drops its result; the
    handler's replies are sent in the order it issues them. *)
Fixpoint send_replies (replies : list string) (s : BeamLink) (e : Env) : BeamLink * Env :=
  match replies with
  | [] => (s, e)
  | msg :: rest =>
      let '(_, s1, e1) := notify msg s e in send_replies rest s1 e1
  end.

(** [RxCallbacks::onWrite], [rxValue] being [pCharacteristic->getValue()]. *)
Definition onWrite (rxValue : string) (s : BeamLink) (e : Env) : BeamLink * Env :=
  if strlen rxValue >? 0 then
    let s1 := set_messagesReceived (incr32 (messagesReceived s)) s in
    match messageHandler s1 with
    | Some handler =>
        send_replies (handler rxValue) s1 (env_log_handler rxValue e)
    | None => (s1, e)
    end
  else (s, e).

(** *** [BeamLink::setupService] *)

Definition setupService (r : StackResults) (s : BeamLink) (e : Env)
  : bool * BeamLink * Env :=
  if negb (pServer s) then (false, s, e)
  else if negb (r_createService r) then (false, s, e)
  else
    let s1 := set_pChar (r_createCharacteristic r) s in
    if negb (pChar s1) then (false, s1, e)
    else if negb (r_serviceStart r) then (false, s1, e)
    else (true, s1, e).

(** *** [BeamLink::startAdvertising] *)

Definition startAdvertising (intervalMs : Z) (r : StackResults) (s : BeamLink) (e : Env)
  : bool * BeamLink * Env :=
  if negb (r_getAdvertising r) then (false, s, e)
  else
    let intervalUnits := wrap16 ((intervalMs * 16) / 10) in
    let intervalUnits := Z.max 32 (Z.min 16384 intervalUnits) in
    let e1 := env_set_advIntervalUnits intervalUnits e in
    if negb (r_startAdvertising r) then (false, s, e1)
    else (true, s, nimble_startAdvertising true e1).

(** *** [BeamLink::begin]

    [deviceName], [serviceUuid] and [characteristicUuid] are [const char*]
    arguments, [None] for a null pointer. *)

Definition begin (name : option string) (advPowerDbm advIntervalMs : Z)
    (svcUuid chrUuid : option string)
    (r : StackResults) (now : Z) (s : BeamLink) (e : Env)
  : bool * BeamLink * Env :=
  if initialized s then (false, s, e)
  else
    match name with
    | None => (false, s, e)
    | Some devName =>
      if strlen devName =? 0 then (false, s, e)
      else
        let advPowerDbm :=
          if (advPowerDbm <? -12) || (advPowerDbm >? 9)
          then Z.max (-12) (Z.min 9 advPowerDbm) else advPowerDbm in
        let advIntervalMs :=
          if (advIntervalMs <? 20) || (advIntervalMs >? 10240)
          then Z.max 20 (Z.min 10240 advIntervalMs) else advIntervalMs in
        let s1 := set_names devName
                    (default BMLK_SERVICE_UUID svcUuid)
                    (default BMLK_CHARACTERISTIC_UUID chrUuid) s in
        let e1 := env_set_bleDevice (Some devName) e in
        let e2 := env_set_txPower advPowerDbm e1 in
        let s2 := set_pServer (r_createServer r) s1 in
        if negb (pServer s2) then (false, s2, e2)
        else
          let e3 := env_set_mtu 512 e2 in
          let '(ok, s3, e4) := setupService r s2 e3 in
          if negb ok then (false, s3, e4)
          else
            let '(ok, s4, e5) := startAdvertising advIntervalMs r s3 e4 in
            if negb ok then (false, s4, e5)
            else
              (true,
               mkBeamLink (pServer s4) (pChar s4) (messageHandler s4)
                 (deviceConnected s4) true
                 (deviceName s4) (serviceUuid s4) (characteristicUuid s4)
                 0 0 0 now,
               e5)
    end.

(** *** [BeamLink::end] *)

Definition end_ (s : BeamLink) (e : Env) : BeamLink * Env :=
  if initialized s then
    let e1 := if pServer s then env_set_advertising false e else e in
    (mkBeamLink false false (messageHandler s) false false
       (deviceName s) (serviceUuid s) (characteristicUuid s)
       (messagesReceived s) (messagesSent s) (errorCount s) (startTime s),
     env_set_bleDevice None e1)
  else (s, e).

(** The connection state of the design: [Connected] while a peer is
    attached, [Advertising] otherwise. *)
Inductive ConnectionState : Type := Advertising | Connected.

Definition connectionState (s : BeamLink) : ConnectionState :=
  if deviceConnected s then Connected else Advertising.

(** The events the stack delivers to the connection controller.  A central
    that connects ends the advertising on the stack's side; nothing but the
    controller starts it again. *)
Inductive StackEvent : Type :=
  | EvConnect
  | EvDisconnect (adv_ok : bool).

Definition handle_event (ev : StackEvent) (s : BeamLink) (e : Env) : BeamLink * Env :=
  match ev with
  | EvConnect => onConnect s (env_set_advertising false e)
  | EvDisconnect adv_ok => onDisconnect adv_ok s e
  end.

Fixpoint handle_events (evs : list StackEvent) (s : BeamLink) (e : Env) : BeamLink * Env :=
  match evs with
  | [] => (s, e)
  | ev :: rest => let '(s1, e1) := handle_event ev s e in handle_events rest s1 e1
  end.

(** *** Sample runs *)

Definition all_ok : StackResults := mkStackResults true true true true true true.


(** A stack that has not been initialised, with the default ATT MTU. *)
Definition env0 : Env := mkEnv None false 23 0 0 EmptyString [] [].

(** [begin("Dev", 9, 100)] on a fresh engine, at time [5]. *)
Definition started : bool * BeamLink * Env :=
  begin (Some "Dev") 9 100 None None all_ok 5 BeamLink_new env0.

Definition started_engine : BeamLink := snd (fst started).
Definition started_env : Env := snd started.

(** ... and then a central connects. *)
Definition linked : BeamLink * Env :=
  handle_event EvConnect started_engine started_env.

(** ... and the application has registered a handler that echoes. *)
Definition echo : MessageHandler := fun msg => ["Echo: " +:+ msg].

Definition serving : BeamLink * Env :=
  (onMessage (Some echo) (fst linked), snd linked).

(** The text of 30 bytes used below. *)
Definition long_text : string := "0123456789abcdefghijklmnopqrst".

End BeamLink.

Module NexState.

(** ** Values

    The store holds [bool], [int], [float] and [std::string] values.  What
    the store needs of [float] is its [!=] (which is not the negation of an
    equality: a NaN differs from itself) and [std::to_string]; both are kept
    abstract. *)

Class FloatOps : Type := {
  cfloat : Type;
  float_neq : cfloat -> cfloat -> bool;
  float_to_string : cfloat -> string
}.

(** The alternatives of [StateValueVariant], which are also the types [T] at
    which the templates [set<T>], [get<T>], ... are instantiated. *)
Inductive Kind : Type := KBool | KInt | KFloat | KString.

Definition dquote : string := String "034"%char EmptyString.

(** *** [template<typename T> class StateValue] *)

Record StateValue (T : Type) : Type := mkStateValue {
  currentValue : T;
  previousValue : T;
  changed : bool
}.
Arguments mkStateValue {T} _ _ _.
Arguments currentValue {T} _.
Arguments previousValue {T} _.
Arguments changed {T} _.

(** [explicit StateValue(const T& initialValue)] *)
Definition StateValue_init {T : Type} (initialValue : T) : StateValue T :=
  mkStateValue initialValue initialValue false.

(** [setValue]; [neq] is [operator!=] of [T]. *)
Definition setValue {T : Type} (neq : T -> T -> bool) (newValue : T)
    (sv : StateValue T) : StateValue T :=
  if neq newValue (currentValue sv)
  then mkStateValue newValue (currentValue sv) true
  else sv.

Definition sv_markAsRead {T : Type} (sv : StateValue T) : StateValue T :=
  mkStateValue (currentValue sv) (previousValue sv) false.

Definition sv_reset {T : Type} (sv : StateValue T) : StateValue T :=
  mkStateValue (currentValue sv) (currentValue sv) false.

(** [DeviceInfo] and [NexStateConfig] *)
Record DeviceInfo : Type := mkDeviceInfo {
  deviceName : string;
  deviceId : string;
  deviceType : string;
  firmwareVersion : string;
  ledPin : Z;
  ledActiveHigh : bool
}.

Record NexStateConfig : Type := mkConfig {
  enableSerialOutput : bool;
  enableJsonFormat : bool;
  enableChangeDetection : bool;
  outputIntervalMs : Z;
  outputOnChange : bool;
  outputOnInterval : bool;
  deviceInfo : DeviceInfo
}.

(** The defaults of the two structs. *)
Definition DeviceInfo_default : DeviceInfo :=
  mkDeviceInfo EmptyString EmptyString EmptyString EmptyString 2 true.

Definition NexStateConfig_default : NexStateConfig :=
  mkConfig true true true 1000 true false DeviceInfo_default.

(** A subscriber is a function object; the model names it. *)
Definition Callback : Type := positive.

(** What an operation of the store does to the outside: a line on the
    serial console, or a call of the subscriber. *)
Inductive Event : Type :=
  | SerialPrintln (line : string)
  | Invoke (cb : Callback) (key value : string).

Section Store.

Context `{FloatOps}.

Definition ctype (k : Kind) : Type :=
  match k with
  | KBool => bool
  | KInt => Z
  | KFloat => cfloat
  | KString => string
  end.

(** [operator!=] at each kind. *)
Definition neq (k : Kind) : ctype k -> ctype k -> bool :=
  match k with
  | KBool => fun a b => negb (Bool.eqb a b)
  | KInt => fun a b => negb (a =? b)
  | KFloat => float_neq
  | KString => fun a b => negb (String.eqb a b)
  end.

(** [StateValue<T>::toString] at each kind. *)
Definition toString_at (k : Kind) : ctype k -> string :=
  match k with
  | KBool => fun b => if b then "true" else "false"
  | KInt => fun z => pretty z
  | KFloat => float_to_string
  | KString => fun t => dquote +:+ t +:+ dquote
  end.

Inductive StateValueVariant : Type :=
  | SVBool (sv : StateValue bool)
  | SVInt (sv : StateValue Z)
  | SVFloat (sv : StateValue cfloat)
  | SVString (sv : StateValue string).

(** [std::get_if<StateValue<T>>] *)
Definition get_if (k : Kind) (v : StateValueVariant) : option (StateValue (ctype k)) :=
  match k return option (StateValue (ctype k)) with
  | KBool => match v with SVBool sv => Some sv | _ => None end
  | KInt => match v with SVInt sv => Some sv | _ => None end
  | KFloat => match v with SVFloat sv => Some sv | _ => None end
  | KString => match v with SVString sv => Some sv | _ => None end
  end.

(** The conversion of a [StateValue<T>] to the variant. *)
Definition inject (k : Kind) : StateValue (ctype k) -> StateValueVariant :=
  match k with
  | KBool => SVBool
  | KInt => SVInt
  | KFloat => SVFloat
  | KString => SVString
  end.

(** The three [std::visit] bodies. *)
Definition v_hasChanged (v : StateValueVariant) : bool :=
  match v with
  | SVBool sv => changed sv
  | SVInt sv => changed sv
  | SVFloat sv => changed sv
  | SVString sv => changed sv
  end.

Definition v_markAsRead (v : StateValueVariant) : StateValueVariant :=
  match v with
  | SVBool sv => SVBool (sv_markAsRead sv)
  | SVInt sv => SVInt (sv_markAsRead sv)
  | SVFloat sv => SVFloat (sv_markAsRead sv)
  | SVString sv => SVString (sv_markAsRead sv)
  end.

Definition v_toString (v : StateValueVariant) : string :=
  match v with
  | SVBool sv => toString_at KBool (currentValue sv)
  | SVInt sv => toString_at KInt (currentValue sv)
  | SVFloat sv => toString_at KFloat (currentValue sv)
  | SVString sv => toString_at KString (currentValue sv)
  end.

(** Whether the current and the previous value of an entry differ. *)
Definition v_differs (v : StateValueVariant) : bool :=
  match v with
  | SVBool sv => neq KBool (currentValue sv) (previousValue sv)
  | SVInt sv => neq KInt (currentValue sv) (previousValue sv)
  | SVFloat sv => neq KFloat (currentValue sv) (previousValue sv)
  | SVString sv => neq KString (currentValue sv) (previousValue sv)
  end.

(** *** [class NexState] *)

Record NexState : Type := mkNexState {
  config : NexStateConfig;
  stateValues : gmap string StateValueVariant;
  changeCallback : option Callback;
  lastOutputTime : Z
}.

(** [NexState::NexState(config)], [now] being [millis()]. *)
Definition NexState_new (cfg : NexStateConfig) (now : Z) : NexState :=
  mkNexState cfg ∅ None now.

Definition with_stateValues (m : gmap string StateValueVariant) (s : NexState) : NexState :=
  mkNexState (config s) m (changeCallback s) (lastOutputTime s).

Definition with_lastOutputTime (t : Z) (s : NexState) : NexState :=
  mkNexState (config s) (stateValues s) (changeCallback s) t.

(** The order in which the loops walk the [unordered_map]. *)
Definition entries (s : NexState) : list (string * StateValueVariant) :=
  map_to_list (stateValues s).

Definition get (k : Kind) (key : string) (defaultValue : ctype k) (s : NexState) : ctype k :=
  match stateValues s !! key with
  | Some v =>
      match get_if k v with
      | Some value => currentValue value
      | None => defaultValue
      end
  | None => defaultValue
  end.

Definition hasChanged (k : Kind) (key : string) (s : NexState) : bool :=
  match stateValues s !! key with
  | Some v =>
      match get_if k v with
      | Some value => changed value
      | None => false
      end
  | None => false
  end.

Definition markAsRead (k : Kind) (key : string) (s : NexState) : NexState :=
  match stateValues s !! key with
  | Some v =>
      match get_if k v with
      | Some value =>
          with_stateValues (<[key := inject k (sv_markAsRead value)]> (stateValues s)) s
      | None => s
      end
  | None => s
  end.

Definition getChangedKeys (s : NexState) : list string :=
  map fst (filter (fun p => v_hasChanged (snd p) = true) (entries s)).

Definition hasAnyChanged (s : NexState) : bool :=
  existsb (fun p => v_hasChanged (snd p)) (entries s).

Definition markAllAsRead (s : NexState) : NexState :=
  with_stateValues (v_markAsRead <$> stateValues s) s.

(** The loop of [getStateAsJson]: [json] is the text built so far. *)
Fixpoint json_loop (first : bool) (l : list (string * StateValueVariant)) (json : string)
  : string :=
  match l with
  | [] => json
  | kv :: rest =>
      let json := if negb first then json +:+ "," else json in
      let json := json +:+ (dquote +:+ fst kv +:+ dquote +:+ ":") in
      let json := json +:+ v_toString (snd kv) in
      json_loop false rest json
  end.

Definition getStateAsJson (s : NexState) : string :=
  let d := deviceInfo (config s) in
  let json := "{" in
  let json := json +:+ (dquote +:+ "device" +:+ dquote +:+ ":" +:+ dquote
                        +:+ deviceName d +:+ dquote +:+ ",") in
  let json := json +:+ (dquote +:+ "id" +:+ dquote +:+ ":" +:+ dquote
                        +:+ deviceId d +:+ dquote +:+ ",") in
  let json := json +:+ (dquote +:+ "type" +:+ dquote +:+ ":" +:+ dquote
                        +:+ deviceType d +:+ dquote +:+ ",") in
  let json := json +:+ (dquote +:+ "fw" +:+ dquote +:+ ":" +:+ dquote
                        +:+ firmwareVersion d +:+ dquote +:+ ",") in
  let json := json +:+ (dquote +:+ "state" +:+ dquote +:+ ":{") in
  let json := json_loop true (entries s) json in
  json +:+ "}}".

(** The quote stripping of [getStateAsText]: [val.front()] and [val.back()]
    are the first and the last byte, [val.substr(1, val.length() - 2)] the
    bytes between them. *)
Definition strip_quotes (val : string) : string :=
  match String.get 0 val, String.get (String.length val - 1) val with
  | Some f, Some b =>
      if Ascii.eqb f "034" && Ascii.eqb b "034"
      then String.substring 1 (String.length val - 2) val
      else val
  | _, _ => val
  end.

Fixpoint text_loop (first : bool) (l : list (string * StateValueVariant)) (text : string)
  : string :=
  match l with
  | [] => text
  | kv :: rest =>
      let text := if negb first then text +:+ ", " else text in
      let text := text +:+ (fst kv +:+ "=") in
      let text := text +:+ strip_quotes (v_toString (snd kv)) in
      text_loop false rest text
  end.

Definition getStateAsText (s : NexState) : string :=
  let d := deviceInfo (config s) in
  let text := "Device: " +:+ deviceName d in
  let text := text +:+ (" (ID: " +:+ deviceId d) in
  let text := text +:+ (", Type: " +:+ deviceType d) in
  let text := text +:+ (", FW: " +:+ firmwareVersion d +:+ ")") in
  let text := text +:+ " | State: " in
  text_loop true (entries s) text.

Definition outputJsonState (s : NexState) : list Event :=
  [SerialPrintln (getStateAsJson s)].

Definition outputTextState (s : NexState) : list Event :=
  [SerialPrintln (getStateAsText s)].

(** [outputState], [now] being the [millis()] of its last line. *)
Definition outputState (now : Z) (s : NexState) : NexState * list Event :=
  if negb (enableSerialOutput (config s)) then (s, [])
  else
    let out := if enableJsonFormat (config s)
               then outputJsonState s else outputTextState s in
    (with_lastOutputTime now (markAllAsRead s), out).

Definition checkAndOutput (now : Z) (s : NexState) : NexState * list Event :=
  if enableChangeDetection (config s) && hasAnyChanged s
  then outputState now s
  else (s, []).

(** The entry [set<T>(key, value)] leaves under [key]: the existing entry
    updated by [setValue] when it has the same kind, a fresh entry otherwise. *)
Definition upsert_entry (k : Kind) (key : string) (value : ctype k) (s : NexState)
  : StateValueVariant :=
  match stateValues s !! key with
  | Some v =>
      match get_if k v with
      | Some existingValue => inject k (setValue (neq k) value existingValue)
      | None => inject k (StateValue_init value)
      end
  | None => inject k (StateValue_init value)
  end.

(** [set<T>(key, value)] *)
Definition set (k : Kind) (key : string) (value : ctype k) (now : Z) (s : NexState)
  : NexState * list Event :=
  let s1 := with_stateValues (<[key := upsert_entry k key value s]> (stateValues s)) s in
  if outputOnChange (config s1) then checkAndOutput now s1 else (s1, []).

(** [update]: the time is read once at the top; the time [outputState]
    stores is overwritten by it. *)
Definition update (now : Z) (s : NexState) : NexState * list Event :=
  if outputOnInterval (config s)
     && (wrap32 (now - lastOutputTime s) >=? outputIntervalMs (config s))
  then
    let '(s1, out) := outputState now s in
    (with_lastOutputTime now s1, out)
  else (s, []).

Definition subscribe (callback : option Callback) (s : NexState) : NexState :=
  mkNexState (config s) (stateValues s) callback (lastOutputTime s).

Definition clear (s : NexState) : NexState := with_stateValues ∅ s.

Definition size (s : NexState) : nat := base.size (stateValues s).

(** *** Programs over a store *)

Inductive Op : Type :=
  | OpSet (k : Kind) (key : string) (value : ctype k) (now : Z)
  | OpMarkAsRead (k : Kind) (key : string)
  | OpMarkAllAsRead
  | OpOutputState (now : Z)
  | OpUpdate (now : Z)
  | OpSubscribe (callback : option Callback)
  | OpClear.

Definition exec (op : Op) (s : NexState) : NexState * list Event :=
  match op with
  | OpSet k key value now => set k key value now s
  | OpMarkAsRead k key => (markAsRead k key s, [])
  | OpMarkAllAsRead => (markAllAsRead s, [])
  | OpOutputState now => outputState now s
  | OpUpdate now => update now s
  | OpSubscribe callback => (subscribe callback s, [])
  | OpClear => (clear s, [])
  end.

Fixpoint run (ops : list Op) (s : NexState) : NexState * list Event :=
  match ops with
  | [] => (s, [])
  | op :: rest =>
      let '(s1, out1) := exec op s in
      let '(s2, out2) := run rest s1 in
      (s2, (out1 ++ out2)%list)
  end.


(** The calls of the subscriber among the events. *)
Definition invocations (out : list Event) : list (Callback * string * string) :=
  omap (fun ev => match ev with
                  | Invoke cb key value => Some (cb, key, value)
                  | SerialPrintln _ => None
                  end) out.

(** *** The structured format, as the design document words it

    [{"device":"<name>","id":"<id>","type":"<type>","fw":"<version>",
      "state":{"<key>":<value>,...}}] *)

Definition quoted (t : string) : string := dquote +:+ t +:+ dquote.

Definition json_member (kv : string * StateValueVariant) : string :=
  quoted (fst kv) +:+ ":" +:+ v_toString (snd kv).

Definition structured_format (d : DeviceInfo) (l : list (string * StateValueVariant))
  : string :=
  "{" +:+ quoted "device" +:+ ":" +:+ quoted (deviceName d) +:+ ","
      +:+ quoted "id" +:+ ":" +:+ quoted (deviceId d) +:+ ","
      +:+ quoted "type" +:+ ":" +:+ quoted (deviceType d) +:+ ","
      +:+ quoted "fw" +:+ ":" +:+ quoted (firmwareVersion d) +:+ ","
      +:+ quoted "state" +:+ ":{"
      +:+ String.concat "," (map json_member l)
      +:+ "}}".

(** The on-change output pass of [set] can fire only with these three
    switches on. *)
Definition on_change_output (cfg : NexStateConfig) : bool :=
  outputOnChange cfg && enableChangeDetection cfg && enableSerialOutput cfg.

(** Every dirty entry has a current value that differs from its previous
    one. *)
Definition dirty_implies_differs (m : gmap string StateValueVariant) : Prop :=
  map_Forall (fun _ v => v_hasChanged v = true -> v_differs v = true) m.

End Store.

(** *** Sample stores *)

(** Floats of integral value, printed the way [std::to_string] prints
    them; enough to run the store on examples. *)
Definition integral_floats : FloatOps :=
  {| cfloat := Z;
     float_neq := fun a b => negb (a =? b);
     float_to_string := fun z => pretty z +:+ ".000000" |}.

Definition led_device : DeviceInfo :=
  mkDeviceInfo "BeamLink-LED" "BLX-LED-001" "led" "1.0.0" 2 true.

(** The configuration of the template's [main.cpp]. *)
Definition led_config : NexStateConfig :=
  mkConfig true true true 1000 true false led_device.

(** The same with the on-change output switched off. *)
Definition manual_config : NexStateConfig :=
  mkConfig true true true 1000 false false led_device.

(** The same with the serial output switched off. *)
Definition silent_config : NexStateConfig :=
  mkConfig false true true 1000 true false led_device.

Section Samples.

#[local] Existing Instance integral_floats.

(** [set("ledOn", true)] on a new store. *)
Definition led_store : NexState :=
  fst (set KBool "ledOn" true 1 (NexState_new manual_config 0)).

(** A store with a subscriber, three keys, and one change not yet read. *)
Definition dirty_store : NexState :=
  fst (run [OpSubscribe (Some 1%positive);
            OpSet KBool "ledOn" true 1;
            OpSet KInt "count" 41 2;
            OpSet KString "mode" "blink" 3;
            OpSet KInt "count" 42 4]
         (NexState_new manual_config 0)).

(** The same program under the configuration without serial output. *)
Definition silent_store : NexState :=
  fst (run [OpSet KBool "ledOn" true 1;
            OpSet KInt "count" 41 2;
            OpSet KInt "count" 42 4]
         (NexState_new silent_config 0)).

(** Double quotes shown as apostrophes, to write expected texts down. *)
Definition show_quotes (t : string) : string :=
  string_of_list_ascii
    (map (fun c => if Ascii.eqb c "034" then "'"%char else c)
       (list_ascii_of_string t)).

End Samples.

End NexState.

(** ** The global store of [NexState.cpp], and the plain-text format *)

Module NexStateGlobal.

Import NexState.

Section Global.

Context `{FloatOps}.

(** [std::unique_ptr<NexState> g_nexState]: [None] is the null pointer. *)
Definition Global : Type := option NexState.

(** [initialize(config)], [now] being the [millis()] of the constructor. *)
Definition initialize (cfg : NexStateConfig) (now : Z) (g : Global) : bool * Global :=
  match g with
  | Some _ => (false, g)
  | None => (true, Some (NexState_new cfg now))
  end.

(** [State()]: the store the returned reference designates, and the global
    after the call. *)
Definition State (now : Z) (g : Global) : NexState * Global :=
  let g1 :=
    match g with
    | None => snd (initialize NexStateConfig_default now g)
    | Some _ => g
    end in
  match g1 with
  | Some s => (s, g1)
  | None => (NexState_new NexStateConfig_default now, g1)
  end.

(** The free function [update()]. *)
Definition update (now : Z) (g : Global) : Global * list Event :=
  match g with
  | Some s => let '(s', out) := NexState.update now s in (Some s', out)
  | None => (g, [])
  end.

(** [shutdown()] *)
Definition shutdown (g : Global) : Global := None.

(** *** The plain-text format, as the design document words it

    [Device: <name> (ID: <id>, Type: <type>, FW: <version>) | State:
     <key>=<value>, ...], values unquoted. *)

Definition v_plain (v : StateValueVariant) : string :=
  match v with
  | SVBool sv => if currentValue sv then "true" else "false"
  | SVInt sv => pretty (currentValue sv)
  | SVFloat sv => strip_quotes (float_to_string (currentValue sv))
  | SVString sv => currentValue sv
  end.

Definition text_member (kv : string * StateValueVariant) : string :=
  fst kv +:+ "=" +:+ v_plain (snd kv).

Definition plain_format (d : DeviceInfo) (l : list (string * StateValueVariant))
  : string :=
  "Device: " +:+ deviceName d +:+ " (ID: " +:+ deviceId d
    +:+ ", Type: " +:+ deviceType d +:+ ", FW: " +:+ firmwareVersion d
    +:+ ") | State: " +:+ String.concat ", " (map text_member l).

End Global.

End NexStateGlobal.

(** ** [BeamUtils.cpp] *)

Module BeamUtils.

(** [s.find(ch)]: the index of the first [ch], [None] for [npos]. *)
Fixpoint find (ch : ascii) (s : string) : option nat :=
  match s with
  | EmptyString => None
  | String a rest =>
      if Ascii.eqb a ch then Some 0%nat
      else match find ch rest with
           | Some i => Some (S i)
           | None => None
           end
  end.

(** [s.substr(pos)], for [pos <= s.length()]. *)
Fixpoint drop (pos : nat) (s : string) : string :=
  match pos, s with
  | O, _ => s
  | S p, EmptyString => EmptyString
  | S p, String _ rest => drop p rest
  end.

(** [s.find(ch, pos)] *)
Definition find_from (ch : ascii) (pos : nat) (s : string) : option nat :=
  match find ch (drop pos s) with
  | Some i => Some (pos + i)%nat
  | None => None
  end.

Definition empty (s : string) : bool :=
  match s with EmptyString => true | _ => false end.

(** [parseCommand]: the result and the two output parameters, [command]
    and [action] being their values at the call. *)
Definition parseCommand (message command action : string) : bool * string * string :=
  match find ":" message with
  | None => (false, command, action)
  | Some pos =>
      if Nat.eqb pos 0 || Nat.eqb pos (String.length message - 1)
      then (false, command, action)
      else (true, String.substring 0 pos message, drop (pos + 1) message)
  end.

(** [parseCommandValue] *)
Definition parseCommandValue (message command action value : string)
  : bool * string * string * string :=
  match find ":" message with
  | None => (false, command, action, value)
  | Some firstColon =>
      match find_from ":" (firstColon + 1) message with
      | None => (false, command, action, value)
      | Some secondColon =>
          let command := String.substring 0 firstColon message in
          let action :=
            String.substring (firstColon + 1) (secondColon - firstColon - 1) message in
          let value := drop (secondColon + 1) message in
          (negb (empty command) && negb (empty action), command, action, value)
      end
  end.

(** [std::getline(ss, token, delimiter)] on the unread rest [ss] of the
    stream: it fails at the end of the stream; otherwise it reads up to the
    next delimiter, which it consumes, or up to the end. *)
Fixpoint read_token (ss : string) (delimiter : ascii) : string * string :=
  match ss with
  | EmptyString => (EmptyString, EmptyString)
  | String a rest =>
      if Ascii.eqb a delimiter then (EmptyString, rest)
      else let '(token, rest') := read_token rest delimiter in
           (String a token, rest')
  end.

Definition getline (ss : string) (delimiter : ascii) : option (string * string) :=
  match ss with
  | EmptyString => None
  | _ => Some (read_token ss delimiter)
  end.

(** The [while] loop of [split]; each turn consumes at least one byte, so
    [fuel] above the length of the stream is never used up. *)
Fixpoint split_loop (fuel : nat) (ss : string) (delimiter : ascii) : list string :=
  match fuel with
  | O => []
  | S fuel' =>
      match getline ss delimiter with
      | Some (token, ss') => token :: split_loop fuel' ss' delimiter
      | None => []
      end
  end.

Definition split (str : string) (delimiter : ascii) : list string :=
  split_loop (S (String.length str)) str delimiter.

(** The set [" \t\n\r"]. *)
Definition is_space (c : ascii) : bool :=
  Ascii.eqb c " " || Ascii.eqb c "009" || Ascii.eqb c "010" || Ascii.eqb c "013".

(** [str.find_first_not_of(" \t\n\r")] *)
Fixpoint find_first_not_of (s : string) : option nat :=
  match s with
  | EmptyString => None
  | String a rest =>
      if is_space a then
        match find_first_not_of rest with
        | Some i => Some (S i)
        | None => None
        end
      else Some 0%nat
  end.

(** [str.find_last_not_of(" \t\n\r")] *)
Fixpoint find_last_not_of (s : string) : option nat :=
  match s with
  | EmptyString => None
  | String a rest =>
      match find_last_not_of rest with
      | Some i => Some (S i)
      | None => if is_space a then None else Some 0%nat
      end
  end.

(** [trim].  When [first] is found so is [last]; were it [npos], the
    [size_t] count [last - first + 1] would reach past the end and [substr]
    give the rest of the string. *)
Definition trim (str : string) : string :=
  match find_first_not_of str with
  | None => EmptyString
  | Some first =>
      match find_last_not_of str with
      | Some last => String.substring first (last - first + 1) str
      | None => drop first str
      end
  end.

(** [::tolower] and [::toupper] in the C locale. *)
Definition tolower (c : ascii) : ascii :=
  let n := nat_of_ascii c in
  if Nat.leb 65 n && Nat.leb n 90 then ascii_of_nat (n + 32) else c.

Definition toupper (c : ascii) : ascii :=
  let n := nat_of_ascii c in
  if Nat.leb 97 n && Nat.leb n 122 then ascii_of_nat (n - 32) else c.

(** [std::transform] over the bytes of a string. *)
Fixpoint transform (f : ascii -> ascii) (s : string) : string :=
  match s with
  | EmptyString => EmptyString
  | String a rest => String (f a) (transform f rest)
  end.

Definition toLower (str : string) : string := transform tolower str.
Definition toUpper (str : string) : string := transform toupper str.

(** [str.compare(pos, len, other) == 0] *)
Definition compare_eq (pos len : nat) (str other : string) : bool :=
  String.eqb (String.substring pos len str) other.

Definition startsWith (str prefix : string) : bool :=
  if Nat.ltb (String.length str) (String.length prefix) then false
  else compare_eq 0 (String.length prefix) str prefix.

Definition endsWith (str suffix : string) : bool :=
  if Nat.ltb (String.length str) (String.length suffix) then false
  else compare_eq (String.length str - String.length suffix)
         (String.length suffix) str suffix.

(** [formatUptime], on [unsigned long]; [std::to_string] is [pretty]. *)
Definition formatUptime (uptimeMs : Z) : string :=
  let seconds := uptimeMs / 1000 in
  let minutes := seconds / 60 in
  let hours := minutes / 60 in
  let days := hours / 24 in
  let seconds := seconds mod 60 in
  let minutes := minutes mod 60 in
  let hours := hours mod 24 in
  let result := EmptyString in
  let result := if days >? 0 then result +:+ (pretty days +:+ "d ") else result in
  let result := if (hours >? 0) || (days >? 0)
                then result +:+ (pretty hours +:+ "h ") else result in
  let result := if (minutes >? 0) || (hours >? 0) || (days >? 0)
                then result +:+ (pretty minutes +:+ "m ") else result in
  result +:+ (pretty seconds +:+ "s").

Definition formatStats (received sent errors uptimeMs : Z) : string :=
  let result := "Stats: " in
  let result := result +:+ ("RX=" +:+ pretty received) in
  let result := result +:+ (", TX=" +:+ pretty sent) in
  let result := result +:+ (", Errors=" +:+ pretty errors) in
  let result := result +:+ (", Uptime=" +:+ formatUptime uptimeMs) in
  result.

(** *** What [trim] is meant to do, in two passes *)

Fixpoint strip_left (s : string) : string :=
  match s with
  | EmptyString => EmptyString
  | String a rest => if is_space a then strip_left rest else s
  end.

Fixpoint strip_right (s : string) : string :=
  match s with
  | EmptyString => EmptyString
  | String a rest =>
      match strip_right rest with
      | EmptyString => if is_space a then EmptyString else String a EmptyString
      | t => String a t
      end
  end.

Fixpoint all_space (s : string) : bool :=
  match s with
  | EmptyString => true
  | String a rest => is_space a && all_space rest
  end.

(** Whether [ch] occurs in [s]. *)
Fixpoint occurs (ch : ascii) (s : string) : bool :=
  match s with
  | EmptyString => false
  | String a rest => Ascii.eqb a ch || occurs ch rest
  end.

End BeamUtils.

(** ** [LEDUtils.cpp] and [LEDMessageHandler.cpp] *)

Module LEDMessageHandler.

(** [digitalWrite(pin, level)], [HIGH] being [true]. *)
Inductive GpioWrite : Type :=
  | DigitalWrite (pin : Z) (level : bool).

(** [LEDUtils::turnOn] and [LEDUtils::turnOff] *)
Definition turnOn (pin : Z) (activeHigh : bool) : list GpioWrite :=
  [DigitalWrite pin (if activeHigh then true else false)].

Definition turnOff (pin : Z) (activeHigh : bool) : list GpioWrite :=
  [DigitalWrite pin (if activeHigh then false else true)].

(** The fields of [class LEDCommandHandler]. *)
Record LEDCommandHandler : Type := mkHandler {
  ledPin : Z;
  ledActiveHigh : bool;
  deviceName : string;
  deviceId : string;
  deviceType : string;
  firmwareVersion : string;
  ledState : bool;
  blinkingMode : bool;
  lastBlinkTime : Z
}.

Definition LEDCommandHandler_new (pin : Z) (activeHigh : bool)
    (name id type fw : string) : LEDCommandHandler :=
  mkHandler pin activeHigh name id type fw false false 0.

Definition with_led (state blinking : bool) (h : LEDCommandHandler) : LEDCommandHandler :=
  mkHandler (ledPin h) (ledActiveHigh h) (deviceName h) (deviceId h) (deviceType h)
    (firmwareVersion h) state blinking (lastBlinkTime h).

Definition on_off (b : bool) : string := if b then "ON" else "OFF".
Definition yes_no (b : bool) : string := if b then "YES" else "NO".

(** [handleMessage]: the handler afterwards, the pin writes and the texts
    passed to [reply], both in order. *)
Definition handleMessage (message : string) (h : LEDCommandHandler)
  : LEDCommandHandler * list GpioWrite * list string :=
  if String.eqb message "led:on" then
    (with_led true false h, turnOn (ledPin h) (ledActiveHigh h), ["LED ON"])
  else if String.eqb message "led:off" then
    (with_led false false h, turnOff (ledPin h) (ledActiveHigh h), ["LED OFF"])
  else if String.eqb message "led:status" then
    (h, [], ["LED " +:+ on_off (ledState h)])
  else if String.eqb message "led:toggle" then
    let state := negb (ledState h) in
    (with_led state false h,
     if state then turnOn (ledPin h) (ledActiveHigh h)
     else turnOff (ledPin h) (ledActiveHigh h),
     ["LED " +:+ on_off state])
  else if String.eqb message "led:blink" then
    (with_led true true h, [], ["LED BLINKING"])
  else if String.eqb message "state:info" then
    (h, [],
     ["State: " +:+ on_off (ledState h) +:+ ", Blinking: "
        +:+ yes_no (blinkingMode h)])
  else if String.eqb message "info" then
    (h, [],
     ["Device: " +:+ deviceName h +:+ ", ID: " +:+ deviceId h
        +:+ ", Type: " +:+ deviceType h +:+ ", FW: " +:+ firmwareVersion h
        +:+ ", State: " +:+ on_off (ledState h)])
  else
    (h, [], ["Unknown Command"]).

(** [update]: [now] is the [millis()] of the test and [now'] the later one
    stored in [lastBlinkTime]. *)
Definition update (now now' : Z) (h : LEDCommandHandler)
  : LEDCommandHandler * list GpioWrite :=
  if blinkingMode h then
    if wrap32 (now - lastBlinkTime h) >=? 500 then
      let state := negb (ledState h) in
      (mkHandler (ledPin h) (ledActiveHigh h) (deviceName h) (deviceId h)
         (deviceType h) (firmwareVersion h) state (blinkingMode h) now',
       if state then turnOn (ledPin h) (ledActiveHigh h)
       else turnOff (ledPin h) (ledActiveHigh h))
    else (h, [])
  else (h, []).

(** [refreshFromSerial] *)
Definition refreshFromSerial (serialInput : string) (h : LEDCommandHandler)
  : bool * LEDCommandHandler * list GpioWrite :=
  if String.eqb serialInput "on" || String.eqb serialInput "1" then
    (true, with_led true false h, turnOn (ledPin h) (ledActiveHigh h))
  else if String.eqb serialInput "off" || String.eqb serialInput "0" then
    (true, with_led false false h, turnOff (ledPin h) (ledActiveHigh h))
  else if String.eqb serialInput "blink" || String.eqb serialInput "toggle" then
    (true, with_led true true h, [])
  else if String.eqb serialInput "status" then (false, h, [])
  else (false, h, []).

(** The commands [handleMessage] knows. *)
Definition commands : list string :=
  ["led:on"; "led:off"; "led:status"; "led:toggle"; "led:blink"; "state:info"; "info"].

(** The level that shows [state] on a pin of the given polarity. *)
Definition level_for (activeHigh state : bool) : bool := Bool.eqb state activeHigh.

End LEDMessageHandler.

(** ** The message handler of the template's [main.cpp]

    The lambda given to [beam.onMessage]: it keeps the LED state in the
    global store.  [DEVICE_NAME], [DEVICE_ID], [DEVICE_TYPE] and
    [FIRMWARE_VERSION] come from [beam.config.h] and are the fields of [d];
    [now1] and [now2] are the clock readings of its first and second [set]. *)

Module TemplateMain.

Import NexState NexStateGlobal.

Section Handler.

Context `{FloatOps}.

(** [State().set(key, value)] *)
Definition State_set (k : Kind) (key : string) (value : ctype k) (now : Z) (g : Global)
  : Global * list Event :=
  let '(s, _) := State now g in
  let '(s', out) := set k key value now s in
  (Some s', out).

(** [State().get<T>(key, defaultValue)] *)
Definition State_get (k : Kind) (key : string) (defaultValue : ctype k) (now : Z)
    (g : Global) : ctype k * Global :=
  let '(s, g1) := State now g in (get k key defaultValue s, g1).

Definition on_off (b : bool) : string := if b then "ON" else "OFF".
Definition yes_no (b : bool) : string := if b then "YES" else "NO".

(** Two [set]s in a row. *)
Definition set_both (key1 : string) (v1 : bool) (key2 : string) (v2 : bool)
    (now1 now2 : Z) (g : Global) : Global * list Event :=
  let '(g1, out1) := State_set KBool key1 v1 now1 g in
  let '(g2, out2) := State_set KBool key2 v2 now2 g1 in
  (g2, (out1 ++ out2)%list).

Definition handler (d : DeviceInfo) (message : string) (now1 now2 : Z) (g : Global)
  : Global * list Event * list string :=
  if String.eqb message "led:on" then
    (set_both "ledOn" true "ledBlinking" false now1 now2 g, ["LED ON"])
  else if String.eqb message "led:off" then
    (set_both "ledOn" false "ledBlinking" false now1 now2 g, ["LED OFF"])
  else if String.eqb message "led:status" then
    let '(ledOn, g1) := State_get KBool "ledOn" false now1 g in
    (g1, [], ["LED " +:+ on_off ledOn])
  else if String.eqb message "led:toggle" then
    let '(currentLedOn, g1) := State_get KBool "ledOn" false now1 g in
    (set_both "ledOn" (negb currentLedOn) "ledBlinking" false now1 now2 g1,
     ["LED " +:+ on_off (negb currentLedOn)])
  else if String.eqb message "led:blink" then
    (set_both "ledBlinking" true "ledOn" true now1 now2 g, ["LED BLINKING"])
  else if String.eqb message "state:info" then
    let '(ledOn, g1) := State_get KBool "ledOn" false now1 g in
    let '(ledBlinking, g2) := State_get KBool "ledBlinking" false now1 g1 in
    (g2, [],
     ["State: " +:+ on_off ledOn +:+ ", Blinking: " +:+ yes_no ledBlinking])
  else if String.eqb message "info" then
    let '(ledOn, g1) := State_get KBool "ledOn" false now1 g in
    (g1, [],
     ["Device: " +:+ deviceName d +:+ ", ID: " +:+ deviceId d
        +:+ ", Type: " +:+ deviceType d +:+ ", FW: " +:+ firmwareVersion d
        +:+ ", State: " +:+ on_off ledOn])
  else
    (g, [], ["Unknown Command"]).

(** What the engine sees of the handler on the store [g]: its replies. *)
Definition replies_of (d : DeviceInfo) (now1 now2 : Z) (g : Global)
  : BeamLink.MessageHandler :=
  fun message => snd (handler d message now1 now2 g).

End Handler.

End TemplateMain.

Ltac by_running := vm_compute; repeat split; try reflexivity; try discriminate.

(** * Properties of the protocol engine *)

Section EngineFacts.

Import BeamLink.

(** ** Arithmetic of the counters *)

Lemma incr32_no_overflow (n : Z) : 0 <= n < UINT32_MAX -> incr32 n = n + 1.
Proof.
  unfold incr32, wrap32, UINT32_MAX. intros Hn.
  apply Z.mod_small. lia.
Qed.

Lemma wrap16_small (z : Z) : 0 <= z <= UINT16_MAX -> wrap16 z = z.
Proof.
  unfold wrap16, UINT16_MAX. intros Hz. apply Z.mod_small. lia.
Qed.

(** ** [substr(0, n)] is the prefix of length [n] *)

Lemma substring_0_prefix (n : nat) (s : string) :
  exists rest, s = String.append (String.substring 0 n s) rest.
Proof.
  revert n. induction s as [|c s IH]; intros [|n]; simpl.
  - exists EmptyString. reflexivity.
  - exists EmptyString. reflexivity.
  - exists (String c s). reflexivity.
  - destruct (IH n) as [rest Hrest]. exists rest.
    unfold String.append; fold String.append. congruence.
Qed.

Lemma substring_0_length (n : nat) (s : string) :
  (n <= String.length s)%nat -> String.length (String.substring 0 n s) = n.
Proof.
  revert n. induction s as [|c s IH]; intros [|n]; simpl; intros Hn;
    try reflexivity; try lia.
  rewrite IH; lia.
Qed.

Lemma substr0_prefix (n : Z) (s : string) :
  exists rest, s = String.append (substr0 n s) rest.
Proof. apply substring_0_prefix. Qed.

Lemma substr0_length (n : Z) (s : string) :
  0 <= n <= strlen s -> strlen (substr0 n s) = n.
Proof.
  unfold strlen, substr0. intros Hn.
  rewrite substring_0_length; lia.
Qed.

(** ** The failing branch and the sending branch of [notify] *)

Lemma notify_not_ready (msg : string) (s : BeamLink) (e : Env) :
  initialized s = false \/ pChar s = false \/ deviceConnected s = false ->
  notify msg s e = (false, set_errorCount (incr32 (errorCount s)) s, e).
Proof.
  intros Hnot. unfold notify.
  destruct Hnot as [-> | [-> | ->]]; simpl;
    rewrite ?orb_true_r; reflexivity.
Qed.

Lemma notify_empty (s : BeamLink) (e : Env) :
  notify EmptyString s e = (false, set_errorCount (incr32 (errorCount s)) s, e).
Proof.
  unfold notify.
  destruct (negb (initialized s) || negb (pChar s) || negb (deviceConnected s));
    reflexivity.
Qed.

Lemma notify_ready_guard (s : BeamLink) :
  initialized s = true -> pChar s = true -> deviceConnected s = true ->
  negb (initialized s) || negb (pChar s) || negb (deviceConnected s) = false.
Proof. intros -> -> ->. reflexivity. Qed.

Lemma notify_oversized (msg : string) (s : BeamLink) (e : Env) :
  initialized s = true -> pChar s = true -> deviceConnected s = true ->
  3 <= mtu e <= UINT16_MAX ->
  strlen msg > mtu e - 3 ->
  notify msg s e =
    (true,
     set_messagesSent (incr32 (messagesSent s))
       (set_errorCount (incr32 (errorCount s)) s),
     char_notify (char_setValue (substr0 (mtu e - 3) msg) e)).
Proof.
  intros Hi Hc Hd Hmtu Hlen. unfold notify.
  rewrite notify_ready_guard by assumption.
  rewrite wrap16_small by (unfold UINT16_MAX in *; lia).
  assert ((strlen msg =? 0) = false) as -> by (apply Z.eqb_neq; lia).
  assert ((strlen msg >? mtu e - 3) = true) as ->
    by (apply Z.gtb_lt; lia).
  reflexivity.
Qed.

Lemma notify_fits (msg : string) (s : BeamLink) (e : Env) :
  initialized s = true -> pChar s = true -> deviceConnected s = true ->
  3 <= mtu e <= UINT16_MAX ->
  0 < strlen msg <= mtu e - 3 ->
  notify msg s e =
    (true, set_messagesSent (incr32 (messagesSent s)) s,
     char_notify (char_setValue msg e)).
Proof.
  intros Hi Hc Hd Hmtu Hlen. unfold notify.
  rewrite notify_ready_guard by assumption.
  rewrite wrap16_small by (unfold UINT16_MAX in *; lia).
  assert ((strlen msg =? 0) = false) as -> by (apply Z.eqb_neq; lia).
  assert ((strlen msg >? mtu e - 3) = false) as ->.
  { rewrite Z.gtb_ltb. apply Z.ltb_ge. lia. }
  reflexivity.
Qed.

(** ** The claims about the engine *)

(** C1 (truncation law).  When the engine is initialised and a peer is
    connected, [notify] of a text longer than [MTU - 3] bytes returns true,
    hands exactly one frame to the characteristic's notify, that frame is the
    first [MTU - 3] bytes of the text, and both [errors] and [sent] go up by
    one ([uint32_t] increments: by exactly one below the top of the range). *)
Theorem notify_truncation_law (msg : string) (s : BeamLink) (e : Env) :
  initialized s = true -> pChar s = true -> isConnected s = true ->
  3 <= mtu e <= UINT16_MAX ->
  strlen msg > mtu e - 3 ->
  exists s' e',
    notify msg s e = (true, s', e') /\
    notified e' = (notified e ++ [substr0 (mtu e - 3) msg])%list /\
    strlen (substr0 (mtu e - 3) msg) = mtu e - 3 /\
    (exists rest, msg = String.append (substr0 (mtu e - 3) msg) rest) /\
    getErrors s' = incr32 (getErrors s) /\
    getMessagesSent s' = incr32 (getMessagesSent s) /\
    (0 <= getErrors s < UINT32_MAX -> getErrors s' = getErrors s + 1) /\
    (0 <= getMessagesSent s < UINT32_MAX ->
     getMessagesSent s' = getMessagesSent s + 1) /\
    getMessagesReceived s' = getMessagesReceived s.
Proof.
  intros Hi Hc Hd Hmtu Hlen.
  eexists _, _. split.
  { apply notify_oversized; assumption. }
  simpl. repeat split.
  - apply substr0_length. lia.
  - apply substr0_prefix.
  - apply incr32_no_overflow.
  - apply incr32_no_overflow.
Qed.

Lemma notify_truncation_law_witness :
  let s := fst serving in
  let e := env_set_mtu 23 (snd serving) in
  (initialized s = true /\ pChar s = true /\ isConnected s = true /\
   3 <= mtu e <= UINT16_MAX /\ strlen long_text > mtu e - 3) /\
  exists s' e',
    notify long_text s e = (true, s', e') /\
    notified e' = (notified e ++ [substr0 (mtu e - 3) long_text])%list /\
    strlen (substr0 (mtu e - 3) long_text) = mtu e - 3 /\
    (exists rest, long_text = String.append (substr0 (mtu e - 3) long_text) rest) /\
    getErrors s' = incr32 (getErrors s) /\
    getMessagesSent s' = incr32 (getMessagesSent s) /\
    (0 <= getErrors s < UINT32_MAX -> getErrors s' = getErrors s + 1) /\
    (0 <= getMessagesSent s < UINT32_MAX ->
     getMessagesSent s' = getMessagesSent s + 1) /\
    getMessagesReceived s' = getMessagesReceived s.
Proof.
  intros s e. split.
  - by_running.
  - apply (notify_truncation_law long_text s e); by_running.
Defined.

(** C6 (notify requires a ready engine).  When the engine is not
    initialised, or no peer is connected, or the text is empty, [notify]
    returns false, leaves the stack untouched (nothing is transmitted) and
    changes nothing of the engine but [errors], which goes up by one. *)
Theorem notify_requires_ready (msg : string) (s : BeamLink) (e : Env) :
  initialized s = false \/ isConnected s = false \/ msg = EmptyString ->
  exists s',
    notify msg s e = (false, s', e) /\
    s' = set_errorCount (incr32 (errorCount s)) s /\
    getErrors s' = incr32 (getErrors s) /\
    (0 <= getErrors s < UINT32_MAX -> getErrors s' = getErrors s + 1) /\
    getMessagesSent s' = getMessagesSent s.
Proof.
  intros Hcase. eexists. split.
  - destruct Hcase as [Hi | [Hd | ->]].
    + apply notify_not_ready. auto.
    + apply notify_not_ready. auto.
    + apply notify_empty.
  - simpl. repeat split. apply incr32_no_overflow.
Qed.

Lemma notify_requires_ready_witness :
  (initialized started_engine = false \/ isConnected started_engine = false
   \/ "hi" = EmptyString) /\
  exists s',
    notify "hi" started_engine started_env = (false, s', started_env) /\
    s' = set_errorCount (incr32 (errorCount started_engine)) started_engine /\
    getErrors s' = incr32 (getErrors started_engine) /\
    (0 <= getErrors started_engine < UINT32_MAX ->
     getErrors s' = getErrors started_engine + 1) /\
    getMessagesSent s' = getMessagesSent started_engine.
Proof.
  split.
  - right. left. reflexivity.
  - apply (notify_requires_ready "hi" started_engine started_env).
    right. left. reflexivity.
Defined.

(** C8 (reset clears but preserves identity).  [resetStats] zeroes the
    three counters and sets the start time to the current instant; the
    device name, the connection flag and every other field stay as they
    were. *)
Theorem resetStats_clears_and_preserves (now : Z) (s : BeamLink) :
  let s' := resetStats now s in
  getMessagesReceived s' = 0 /\ getMessagesSent s' = 0 /\ getErrors s' = 0 /\
  startTime s' = now /\
  getDeviceName s' = getDeviceName s /\
  isConnected s' = isConnected s /\
  connectionState s' = connectionState s /\
  initialized s' = initialized s /\
  pServer s' = pServer s /\ pChar s' = pChar s /\
  messageHandler s' = messageHandler s /\
  serviceUuid s' = serviceUuid s /\
  characteristicUuid s' = characteristicUuid s.
Proof. simpl. repeat split. Qed.

(** C5, as the code has it.  An empty inbound frame is ignored: [onWrite]
    changes neither the engine nor the stack, so the handler is not called
    and [received] is not counted, and [errors] is not counted either. *)
Theorem onWrite_empty_is_ignored (s : BeamLink) (e : Env) :
  onWrite EmptyString s e = (s, e).
Proof. reflexivity. Qed.

(** C5 as claimed fails: on an engine that serves a peer with a handler
    registered, an empty frame leaves [errors] where it was. *)
Lemma onWrite_empty_counts_no_error :
  let s' := fst (onWrite EmptyString (fst serving) (snd serving)) in
  getErrors s' = getErrors (fst serving) /\
  getErrors s' <> getErrors (fst serving) + 1.
Proof. by_running. Qed.

(** C7 (auto-reconnect).  A disconnect event taken in the [Connected] state
    leaves the engine in [Advertising]: the connected flag is cleared, the
    controller itself asks the stack to start advertising, and advertising is
    active once the stack has accepted that request.  Whatever events follow,
    the state is one of the two. *)
Theorem disconnect_rearms_advertising (adv_ok : bool) (s : BeamLink) (e : Env) :
  connectionState s = Connected ->
  let s' := fst (onDisconnect adv_ok s e) in
  let e' := snd (onDisconnect adv_ok s e) in
  connectionState s' = Advertising /\
  isConnected s' = false /\
  e' = nimble_startAdvertising adv_ok e /\
  (adv_ok = true -> advertising e' = true) /\
  s' = set_deviceConnected false s /\
  (forall evs,
     let s'' := fst (handle_events evs s' e') in
     connectionState s'' = Advertising \/ connectionState s'' = Connected).
Proof.
  intros _. simpl. repeat split.
  - intros ->. reflexivity.
  - intros evs.
    destruct (connectionState (fst (handle_events evs _ _))); auto.
Qed.

Lemma disconnect_rearms_advertising_witness :
  connectionState (fst linked) = Connected /\
  advertising (snd linked) = false /\
  let s' := fst (onDisconnect true (fst linked) (snd linked)) in
  let e' := snd (onDisconnect true (fst linked) (snd linked)) in
  connectionState s' = Advertising /\ isConnected s' = false /\
  advertising e' = true.
Proof.
  split; [reflexivity | split; [reflexivity |]].
  destruct (disconnect_rearms_advertising true (fst linked) (snd linked))
    as (Hst & Hconn & _ & Hadv & _); [reflexivity |].
  split; [exact Hst | split; [exact Hconn | exact (Hadv eq_refl)]].
Defined.

(** ** [begin] *)

Lemma begin_initialized (name : option string) (pw iv : Z)
    (su cu : option string) (r : StackResults) (now : Z) (s : BeamLink) (e : Env) :
  initialized s = true -> begin name pw iv su cu r now s e = (false, s, e).
Proof. intros Hi. unfold begin. rewrite Hi. reflexivity. Qed.



(** A [begin] that succeeds leaves both handles set, the statistics zeroed,
    the start time at the current instant and the stack advertising with the
    MTU request made. *)
Lemma begin_success_handles (name : option string) (pw iv : Z)
    (su cu : option string) (r : StackResults) (now : Z) (s : BeamLink) (e : Env)
    (s' : BeamLink) (e' : Env) :
  begin name pw iv su cu r now s e = (true, s', e') ->
  pServer s' = true /\ pChar s' = true /\
  messagesReceived s' = 0 /\ messagesSent s' = 0 /\ errorCount s' = 0 /\
  startTime s' = now /\
  deviceConnected s' = deviceConnected s /\
  advertising e' = true /\ mtu e' = 512.
Proof.
  unfold begin, setupService, startAdvertising.
  destruct (initialized s); [discriminate |].
  destruct name as [devName|]; [| discriminate].
  destruct (strlen devName =? 0); [discriminate |].
  cbv zeta.
  destruct (r_createServer r), (r_createService r), (r_createCharacteristic r),
    (r_serviceStart r), (r_getAdvertising r), (r_startAdvertising r);
    cbn; intros Heq; try discriminate.
  injection Heq as <- <-. cbn. repeat split.
Qed.

(** The scenario of the design document: [begin("Dev", 9, 100)] succeeds and
    no peer is connected; [notify("hi")] fails and counts an error; after a
    connect event [notify("hi")] succeeds and counts a sent frame; after a
    disconnect event no peer is connected and the stack advertises again. *)
Example scenario_connect_notify_disconnect :
  let '(ok0, s0, e0) := started in
  let '(ok1, s1, e1) := notify "hi" s0 e0 in
  let '(s2, e2) := handle_event EvConnect s1 e1 in
  let '(ok3, s3, e3) := notify "hi" s2 e2 in
  let '(s4, e4) := handle_event (EvDisconnect true) s3 e3 in
  ok0 = true /\ isConnected s0 = false /\
  ok1 = false /\ getErrors s1 = 1 /\
  advertising e2 = false /\
  ok3 = true /\ getMessagesSent s3 = 1 /\ notified e3 = ["hi"] /\
  isConnected s4 = false /\ advertising e4 = true.
Proof. by_running. Qed.




End EngineFacts.

(** * Properties of the state store *)

(** ** Text *)

Lemma append_assoc (a b c : string) : (a +:+ b) +:+ c = a +:+ (b +:+ c).
Proof.
  induction a as [|ch a IH]; [reflexivity |].
  change (String ch ((a +:+ b) +:+ c) = String ch (a +:+ (b +:+ c))).
  rewrite IH. reflexivity.
Qed.

Lemma append_empty_r (a : string) : a +:+ EmptyString = a.
Proof.
  induction a as [|ch a IH]; [reflexivity |].
  change (String ch (a +:+ EmptyString) = String ch a).
  rewrite IH. reflexivity.
Qed.

Lemma concat_cons2 (sep x y : string) (l : list string) :
  String.concat sep (x :: y :: l) = x +:+ sep +:+ String.concat sep (y :: l).
Proof. reflexivity. Qed.

Section StoreFacts.

Import NexState.
Context `{FloatOps}.

(** ** The loop of [getStateAsJson] builds a comma-separated list *)

Lemma json_loop_rest (l : list (string * StateValueVariant))
    (kv : string * StateValueVariant) (json : string) :
  json_loop false l (json +:+ json_member kv)
  = json +:+ String.concat "," (map json_member (kv :: l)).
Proof.
  revert kv json. induction l as [|kv' l IH]; intros kv json.
  - reflexivity.
  - cbn [json_loop negb].
    replace ((((json +:+ json_member kv) +:+ ",")
                +:+ (dquote +:+ fst kv' +:+ dquote +:+ ":"))
               +:+ v_toString (snd kv'))
      with (((json +:+ json_member kv) +:+ ",") +:+ json_member kv').
    + rewrite IH. cbn [map]. rewrite concat_cons2.
      rewrite !append_assoc. reflexivity.
    + unfold json_member, quoted. rewrite !append_assoc. reflexivity.
Qed.

Lemma json_loop_first (l : list (string * StateValueVariant)) (json : string) :
  json_loop true l json = json +:+ String.concat "," (map json_member l).
Proof.
  destruct l as [|kv l].
  - cbn. rewrite append_empty_r. reflexivity.
  - cbn [json_loop negb].
    replace ((json +:+ (dquote +:+ fst kv +:+ dquote +:+ ":"))
               +:+ v_toString (snd kv))
      with (json +:+ json_member kv).
    + apply json_loop_rest.
    + unfold json_member, quoted. rewrite !append_assoc. reflexivity.
Qed.

Lemma getStateAsJson_structured (s : NexState) :
  getStateAsJson s = structured_format (deviceInfo (config s)) (entries s).
Proof.
  unfold getStateAsJson, structured_format, quoted. cbv zeta.
  rewrite json_loop_first. rewrite !append_assoc. reflexivity.
Qed.

(** ** Which keys a store holds *)








(** ** The store without serial output *)

Lemma set_without_output (k : Kind) (key : string) (value : ctype k) (now : Z)
    (s : NexState) :
  on_change_output (config s) = false ->
  set k key value now s
  = (with_stateValues (<[key := upsert_entry k key value s]> (stateValues s)) s, []).
Proof.
  unfold on_change_output, set, checkAndOutput, outputState. cbn.
  destruct (outputOnChange (config s)); [| reflexivity].
  destruct (enableChangeDetection (config s)); [| reflexivity].
  cbn. intros ->. cbn.
  destruct (hasAnyChanged _); reflexivity.
Qed.

(** C10 (serial output disabled).  With [enableSerialOutput] off,
    [outputState] returns at once: it prints nothing and gives back the
    store as it was, dirty flags and [lastOutputTime] included.  The
    on-change pass of [set] is then without effect as well: [set] only
    upserts its entry and clears no flag. *)
Theorem outputState_disabled_is_noop (now : Z) (s : NexState) :
  enableSerialOutput (config s) = false ->
  outputState now s = (s, []) /\
  checkAndOutput now s = (s, []) /\
  (forall k key value,
     set k key value now s
     = (with_stateValues (<[key := upsert_entry k key value s]> (stateValues s)) s,
        [])) /\
  (forall key, stateValues (fst (outputState now s)) !! key = stateValues s !! key) /\
  getChangedKeys (fst (outputState now s)) = getChangedKeys s /\
  lastOutputTime (fst (outputState now s)) = lastOutputTime s.
Proof.
  intros Hoff.
  assert (outputState now s = (s, [])) as Hout.
  { unfold outputState. rewrite Hoff. reflexivity. }
  split; [exact Hout |].
  split.
  { unfold checkAndOutput. rewrite Hout.
    destruct (enableChangeDetection (config s) && hasAnyChanged s); reflexivity. }
  split.
  { intros k key value. apply set_without_output.
    unfold on_change_output. rewrite Hoff. apply andb_false_r. }
  rewrite Hout. repeat split.
Qed.

(** ** Dirty flags *)

Lemma get_if_inject (k : Kind) (sv : StateValue (ctype k)) :
  get_if k (inject k sv) = Some sv.
Proof. destruct k; reflexivity. Qed.

Lemma v_markAsRead_inject (k : Kind) (sv : StateValue (ctype k)) :
  v_markAsRead (inject k sv) = inject k (sv_markAsRead sv).
Proof. destruct k; reflexivity. Qed.

Lemma v_hasChanged_markAsRead (v : StateValueVariant) :
  v_hasChanged (v_markAsRead v) = false.
Proof. destruct v; reflexivity. Qed.

Lemma hasChanged_lookup (k : Kind) (key : string) (sv : StateValue (ctype k))
    (s : NexState) :
  stateValues s !! key = Some (inject k sv) -> hasChanged k key s = changed sv.
Proof. intros Hv. unfold hasChanged. rewrite Hv, get_if_inject. reflexivity. Qed.

Lemma get_lookup (k : Kind) (key : string) (sv : StateValue (ctype k))
    (dflt : ctype k) (s : NexState) :
  stateValues s !! key = Some (inject k sv) -> get k key dflt s = currentValue sv.
Proof. intros Hv. unfold get. rewrite Hv, get_if_inject. reflexivity. Qed.

(** What [outputState], [checkAndOutput] and [set] leave in the map: the
    entries as they were, or all of them marked as read. *)
Lemma outputState_values (now : Z) (s : NexState) :
  stateValues (fst (outputState now s))
  = if enableSerialOutput (config s)
    then v_markAsRead <$> stateValues s else stateValues s.
Proof. unfold outputState. destruct (enableSerialOutput (config s)); reflexivity. Qed.

Lemma checkAndOutput_values (now : Z) (s : NexState) :
  stateValues (fst (checkAndOutput now s)) = stateValues s \/
  stateValues (fst (checkAndOutput now s)) = v_markAsRead <$> stateValues s.
Proof.
  unfold checkAndOutput.
  destruct (enableChangeDetection (config s) && hasAnyChanged s); [| left; reflexivity].
  rewrite outputState_values.
  destruct (enableSerialOutput (config s)); auto.
Qed.

Lemma set_values (k : Kind) (key : string) (value : ctype k) (now : Z) (s : NexState) :
  let m := <[key := upsert_entry k key value s]> (stateValues s) in
  stateValues (fst (set k key value now s)) = m \/
  stateValues (fst (set k key value now s)) = v_markAsRead <$> m.
Proof.
  unfold set. cbv zeta.
  destruct (outputOnChange _); [| left; reflexivity].
  pose proof (checkAndOutput_values now
                (with_stateValues
                   (<[key := upsert_entry k key value s]> (stateValues s)) s))
    as Hpass.
  exact Hpass.
Qed.

Lemma set_lookup (k : Kind) (key : string) (value : ctype k) (now : Z) (s : NexState) :
  stateValues (fst (set k key value now s)) !! key = Some (upsert_entry k key value s) \/
  stateValues (fst (set k key value now s)) !! key
  = Some (v_markAsRead (upsert_entry k key value s)).
Proof.
  destruct (set_values k key value now s) as [-> | ->].
  - left. apply lookup_insert_eq.
  - right. rewrite lookup_fmap, lookup_insert_eq. reflexivity.
Qed.

Lemma upsert_entry_new (k : Kind) (key : string) (value : ctype k) (s : NexState) :
  stateValues s !! key = None ->
  upsert_entry k key value s = inject k (StateValue_init value).
Proof. intros Hnone. unfold upsert_entry. rewrite Hnone. reflexivity. Qed.

Lemma upsert_entry_same_kind (k : Kind) (key : string) (value : ctype k)
    (sv : StateValue (ctype k)) (s : NexState) :
  stateValues s !! key = Some (inject k sv) ->
  upsert_entry k key value s = inject k (setValue (neq k) value sv).
Proof. intros Hv. unfold upsert_entry. rewrite Hv, get_if_inject. reflexivity. Qed.

(** ** Dirty entries differ from their previous value *)

Lemma upsert_entry_differs (k : Kind) (key : string) (value : ctype k) (s : NexState) :
  dirty_implies_differs (stateValues s) ->
  v_hasChanged (upsert_entry k key value s) = true ->
  v_differs (upsert_entry k key value s) = true.
Proof.
  intros Hinv. unfold upsert_entry.
  destruct (stateValues s !! key) as [v|] eqn:Hv.
  - pose proof (map_Forall_lookup_1 _ _ _ _ Hinv Hv) as Hold. cbn in Hold.
    destruct k, v; cbn [get_if inject]; try discriminate;
      unfold setValue;
      match goal with
      | |- context [if ?c then _ else _] => destruct c eqn:Hneq
      end; cbn; auto.
  - destruct k; discriminate.
Qed.

Lemma markAllAsRead_differs (m : gmap string StateValueVariant) :
  dirty_implies_differs (v_markAsRead <$> m).
Proof.
  apply map_Forall_fmap. intros key v _. cbn.
  rewrite v_hasChanged_markAsRead. discriminate.
Qed.

Lemma outputState_differs (now : Z) (s : NexState) :
  dirty_implies_differs (stateValues s) ->
  dirty_implies_differs (stateValues (fst (outputState now s))).
Proof.
  intros Hinv. rewrite outputState_values.
  destruct (enableSerialOutput (config s)); [apply markAllAsRead_differs | exact Hinv].
Qed.

Lemma exec_differs (op : Op) (s : NexState) :
  dirty_implies_differs (stateValues s) ->
  dirty_implies_differs (stateValues (fst (exec op s))).
Proof.
  intros Hinv. destruct op; cbn [exec fst].
  - assert (dirty_implies_differs
              (<[key := upsert_entry k key value s]> (stateValues s))) as Hins.
    { apply map_Forall_insert_2; [| exact Hinv].
      apply upsert_entry_differs. exact Hinv. }
    destruct (set_values k key value now s) as [-> | ->];
      [exact Hins | apply markAllAsRead_differs].
  - unfold markAsRead.
    destruct (stateValues s !! key) as [v|] eqn:Hv; [| exact Hinv].
    destruct (get_if k v) as [sv|]; [| exact Hinv].
    cbn. apply map_Forall_insert_2; [| exact Hinv].
    rewrite <- v_markAsRead_inject, v_hasChanged_markAsRead. discriminate.
  - cbn. apply markAllAsRead_differs.
  - apply outputState_differs. exact Hinv.
  - unfold update.
    destruct (outputOnInterval (config s) && _); [| exact Hinv].
    pose proof (outputState_differs now s Hinv) as Hout.
    destruct (outputState now s) as [s1 out]. exact Hout.
  - exact Hinv.
  - cbn. apply map_Forall_empty.
Qed.

Lemma run_differs (ops : list Op) (s : NexState) :
  dirty_implies_differs (stateValues s) ->
  dirty_implies_differs (stateValues (fst (run ops s))).
Proof.
  revert s. induction ops as [|op ops IH]; intros s Hinv; [exact Hinv |].
  cbn [run].
  pose proof (exec_differs op s Hinv) as Hstep.
  destruct (exec op s) as [s1 out1].
  specialize (IH s1 Hstep). destruct (run ops s1) as [s2 out2]. exact IH.
Qed.

Lemma set_config (k : Kind) (key : string) (value : ctype k) (now : Z) (s : NexState) :
  config (fst (set k key value now s)) = config s.
Proof.
  unfold set, checkAndOutput, outputState. cbn.
  repeat match goal with
         | |- context [if ?c then _ else _] => destruct c
         end; reflexivity.
Qed.

(** C2, as the code has it.  The first [set] of a key creates a clean
    entry: [hasChanged] is false after it, and still false after a second
    [set] of the same value.  The flag is raised by a [set] of a different
    value; when no on-change output pass runs it then stays raised through
    a repeated [set] of that value, until [markAsRead], or an [outputState]
    that prints, clears it.  In every store a program builds, a raised flag
    implies that the current value differs from the previous one. *)
Theorem first_set_is_clean (k : Kind) (key : string) (v : ctype k) (now : Z)
    (s : NexState) :
  stateValues s !! key = None ->
  let s1 := fst (set k key v now s) in
  hasChanged k key s1 = false /\
  (forall dflt, get k key dflt s1 = v) /\
  (neq k v v = false ->
   forall now', hasChanged k key (fst (set k key v now' s1)) = false) /\
  (on_change_output (config s) = false ->
   forall v' now1 now2, neq k v' v = true -> neq k v' v' = false ->
     let s2 := fst (set k key v' now1 s1) in
     hasChanged k key s2 = true /\
     hasChanged k key (fst (set k key v' now2 s2)) = true /\
     hasChanged k key (markAsRead k key s2) = false /\
     (enableSerialOutput (config s) = true ->
      hasChanged k key (fst (outputState now2 s2)) = false)) /\
  (forall cfg t0 ops,
     dirty_implies_differs (stateValues (fst (run ops (NexState_new cfg t0))))).
Proof.
  intros Hnone s1.
  assert (stateValues s1 !! key = Some (inject k (StateValue_init v))) as Hs1.
  { subst s1. destruct (set_lookup k key v now s) as [-> | ->];
      rewrite upsert_entry_new by exact Hnone; [reflexivity |].
    rewrite v_markAsRead_inject. reflexivity. }
  split; [rewrite (hasChanged_lookup _ _ _ _ Hs1); reflexivity |].
  split; [intros dflt; rewrite (get_lookup _ _ _ _ _ Hs1); reflexivity |].
  split.
  { intros Hsame now'.
    assert (upsert_entry k key v s1 = inject k (StateValue_init v)) as Hup.
    { rewrite (upsert_entry_same_kind _ _ _ _ _ Hs1).
      unfold setValue. cbn. rewrite Hsame. reflexivity. }
    destruct (set_lookup k key v now' s1) as [Hl | Hl]; rewrite Hup in Hl.
    - rewrite (hasChanged_lookup _ _ _ _ Hl). reflexivity.
    - rewrite v_markAsRead_inject in Hl.
      rewrite (hasChanged_lookup _ _ _ _ Hl). reflexivity. }
  split.
  { intros Hquiet v' now1 now2 Hdiff Hsame s2.
    assert (config s1 = config s) as Hcfg1 by apply set_config.
    assert (stateValues s2 !! key = Some (inject k (mkStateValue v' v true))) as Hs2.
    { subst s2. rewrite set_without_output by (rewrite Hcfg1; exact Hquiet).
      cbn. rewrite lookup_insert_eq.
      rewrite (upsert_entry_same_kind _ _ _ _ _ Hs1).
      unfold setValue. cbn. rewrite Hdiff. reflexivity. }
    assert (config s2 = config s) as Hcfg2.
    { subst s2. rewrite set_config. exact Hcfg1. }
    split; [rewrite (hasChanged_lookup _ _ _ _ Hs2); reflexivity |].
    split.
    { rewrite set_without_output by (rewrite Hcfg2; exact Hquiet).
      unfold hasChanged. cbn. rewrite lookup_insert_eq.
      rewrite (upsert_entry_same_kind _ _ _ _ _ Hs2).
      unfold setValue. cbn. rewrite Hsame, get_if_inject. reflexivity. }
    split.
    { unfold markAsRead. rewrite Hs2, get_if_inject.
      unfold hasChanged. cbn. rewrite lookup_insert_eq, get_if_inject.
      reflexivity. }
    intros Hserial. unfold hasChanged.
    rewrite outputState_values, Hcfg2, Hserial.
    rewrite lookup_fmap, Hs2. cbn.
    rewrite v_markAsRead_inject, get_if_inject. reflexivity. }
  intros cfg t0 ops. apply run_differs. cbn. apply map_Forall_empty.
Qed.

(** The subscriber is stored and never called: no operation of the store
    produces a call of it. *)
Lemma outputState_invokes_nothing (now : Z) (s : NexState) :
  invocations (snd (outputState now s)) = [].
Proof.
  unfold outputState, outputJsonState, outputTextState.
  destruct (enableSerialOutput (config s)), (enableJsonFormat (config s));
    reflexivity.
Qed.

End StoreFacts.

Section StoreExamples.

Import NexState.
#[local] Existing Instance integral_floats.

Example dirty_store_changed_keys : getChangedKeys dirty_store = ["count"].
Proof. vm_compute. reflexivity. Qed.

Example dirty_store_json :
  show_quotes (getStateAsJson dirty_store)
  = "{'device':'BeamLink-LED','id':'BLX-LED-001','type':'led','fw':'1.0.0','state':{'count':42,'mode':'blink','ledOn':true}}".
Proof. vm_compute. reflexivity. Qed.

Lemma outputState_disabled_is_noop_witness :
  enableSerialOutput (config silent_store) = false /\
  getChangedKeys silent_store = ["count"] /\
  outputState 9 silent_store = (silent_store, []) /\
  getChangedKeys (fst (outputState 9 silent_store)) = ["count"].
Proof.
  split; [reflexivity |].
  split; [by_running |].
  destruct (outputState_disabled_is_noop 9 silent_store eq_refl)
    as (Hout & _ & _ & _ & Hkeys & _).
  split; [exact Hout |].
  rewrite Hkeys. by_running.
Defined.

Lemma first_set_is_clean_witness :
  stateValues (NexState_new led_config 0) !! "ledOn" = None /\
  hasChanged KBool "ledOn" (fst (set KBool "ledOn" true 1 (NexState_new led_config 0)))
  = false.
Proof.
  split; [reflexivity |].
  exact (proj1 (first_set_is_clean KBool "ledOn" true 1
                  (NexState_new led_config 0) eq_refl)).
Defined.

(** C2 as claimed fails: after the first [set("ledOn", true)] on a new
    store, with no output pass in between, [hasChanged("ledOn")] is false,
    and it is false after the second one. *)
Lemma first_set_not_reported_changed :
  hasChanged KBool "ledOn" led_store <> true /\
  hasChanged KBool "ledOn" (fst (set KBool "ledOn" true 2 led_store)) <> true.
Proof. by_running. Qed.

(** C3 at a store with a subscriber and one unread change: [outputState]
    prints the snapshot, clears the flags and sets the output time, and
    calls the subscriber not once. *)
Theorem outputState_skips_subscriber :
  changeCallback dirty_store = Some 1%positive /\
  getChangedKeys dirty_store = ["count"] /\
  snd (outputState 9 dirty_store) = [SerialPrintln (getStateAsJson dirty_store)] /\
  invocations (snd (outputState 9 dirty_store)) = [] /\
  getChangedKeys (fst (outputState 9 dirty_store)) = [] /\
  lastOutputTime (fst (outputState 9 dirty_store)) = 9.
Proof. by_running. Qed.

End StoreExamples.

(** * Further properties of the protocol engine *)

Section EngineMore.

Import BeamLink.

Lemma incr32_range (n : Z) : 0 <= incr32 n <= UINT32_MAX.
Proof.
  unfold incr32, wrap32, UINT32_MAX.
  pose proof (Z.mod_pos_bound (n + 1) (2 ^ 32)). lia.
Qed.

Lemma incr32_wrap32 (n : Z) : incr32 (wrap32 n) = wrap32 (n + 1).
Proof.
  unfold incr32, wrap32. rewrite Zplus_mod_idemp_l. reflexivity.
Qed.

Lemma wrap32_small (n : Z) : 0 <= n <= UINT32_MAX -> wrap32 n = n.
Proof. unfold wrap32, UINT32_MAX. intros Hn. apply Z.mod_small. lia. Qed.

(** X1.  A text that fits ([0 < len <= MTU - 3]) goes out unchanged as one
    frame: [notify] returns true, [sent] goes up by one and [errors] stays. *)
Theorem notify_within_limit (msg : string) (s : BeamLink) (e : Env) :
  initialized s = true -> pChar s = true -> isConnected s = true ->
  3 <= mtu e <= UINT16_MAX ->
  0 < strlen msg <= mtu e - 3 ->
  exists s' e',
    notify msg s e = (true, s', e') /\
    notified e' = (notified e ++ [msg])%list /\
    charValue e' = msg /\
    getErrors s' = getErrors s /\
    getMessagesSent s' = incr32 (getMessagesSent s) /\
    (0 <= getMessagesSent s < UINT32_MAX ->
     getMessagesSent s' = getMessagesSent s + 1).
Proof.
  intros Hi Hc Hd Hmtu Hlen. eexists _, _. split.
  { apply notify_fits; assumption. }
  cbn. repeat split. apply incr32_no_overflow.
Qed.

Lemma notify_within_limit_witness :
  let s := fst serving in
  let e := snd serving in
  (initialized s = true /\ pChar s = true /\ isConnected s = true /\
   3 <= mtu e <= UINT16_MAX /\ 0 < strlen long_text <= mtu e - 3) /\
  exists s' e',
    notify long_text s e = (true, s', e') /\
    notified e' = (notified e ++ [long_text])%list /\
    charValue e' = long_text /\
    getErrors s' = getErrors s /\
    getMessagesSent s' = incr32 (getMessagesSent s) /\
    (0 <= getMessagesSent s < UINT32_MAX ->
     getMessagesSent s' = getMessagesSent s + 1).
Proof.
  intros s e. split.
  - by_running.
  - apply (notify_within_limit long_text s e); by_running.
Defined.

(** The three outcomes of [notify]. *)
Lemma notify_cases (msg : string) (s : BeamLink) (e : Env) :
  3 <= mtu e <= UINT16_MAX ->
  notify msg s e = (false, set_errorCount (incr32 (errorCount s)) s, e) \/
  (0 < strlen msg <= mtu e - 3 /\
   notify msg s e =
     (true, set_messagesSent (incr32 (messagesSent s)) s,
      char_notify (char_setValue msg e))) \/
  (strlen msg > mtu e - 3 /\
   notify msg s e =
     (true,
      set_messagesSent (incr32 (messagesSent s))
        (set_errorCount (incr32 (errorCount s)) s),
      char_notify (char_setValue (substr0 (mtu e - 3) msg) e))).
Proof.
  intros Hmtu.
  destruct (initialized s) eqn:Hi; [| left; apply notify_not_ready; auto].
  destruct (pChar s) eqn:Hc; [| left; apply notify_not_ready; auto].
  destruct (deviceConnected s) eqn:Hd; [| left; apply notify_not_ready; auto].
  destruct (Z.eq_dec (strlen msg) 0) as [Hz | Hnz].
  { left. unfold notify. rewrite notify_ready_guard by assumption.
    rewrite Hz. reflexivity. }
  assert (0 < strlen msg) by (unfold strlen in *; lia).
  destruct (Z_le_gt_dec (strlen msg) (mtu e - 3)) as [Hle | Hgt].
  - right. left. split; [lia |]. apply notify_fits; auto; lia.
  - right. right. split; [lia |]. apply notify_oversized; auto.
Qed.

(** X2.  Whatever the text and the state, one call of [notify] transmits at
    most one frame, transmits none when it returns false, and a frame it
    transmits is a prefix of the text of at most [MTU - 3] bytes; of the
    engine it changes nothing but [errors] and [sent], and of the stack
    neither the advertising state nor the MTU. *)
Theorem notify_frame_cap (msg : string) (s : BeamLink) (e : Env) :
  3 <= mtu e <= UINT16_MAX ->
  exists ok s' e' frames,
    notify msg s e = (ok, s', e') /\
    notified e' = (notified e ++ frames)%list /\
    (ok = false -> frames = []) /\
    (ok = true ->
     exists f rest, frames = [f] /\ msg = String.append f rest /\
                    strlen f <= mtu e - 3) /\
    s' = set_messagesSent (messagesSent s') (set_errorCount (errorCount s') s) /\
    advertising e' = advertising e /\ mtu e' = mtu e /\
    handlerCalls e' = handlerCalls e.
Proof.
  intros Hmtu.
  destruct (notify_cases msg s e Hmtu) as [-> | [[Hlen ->] | [Hlen ->]]].
  - exists false, (set_errorCount (incr32 (errorCount s)) s), e, [].
    rewrite app_nil_r. repeat split; try discriminate.
  - eexists true, _, _, [msg]. split; [reflexivity |].
    cbn. repeat split; try discriminate.
    intros _. exists msg, EmptyString.
    rewrite append_empty_r. repeat split. lia.
  - eexists true, _, _, [substr0 (mtu e - 3) msg]. split; [reflexivity |].
    cbn. repeat split; try discriminate.
    intros _. destruct (substr0_prefix (mtu e - 3) msg) as [rest Hrest].
    exists (substr0 (mtu e - 3) msg), rest.
    repeat split; [exact Hrest |].
    rewrite substr0_length; lia.
Qed.

Lemma notify_frame_cap_witness :
  let s := fst serving in
  let e := env_set_mtu 23 (snd serving) in
  3 <= mtu e <= UINT16_MAX /\
  exists ok s' e' frames,
    notify long_text s e = (ok, s', e') /\
    notified e' = (notified e ++ frames)%list /\
    (ok = false -> frames = []) /\
    (ok = true ->
     exists f rest, frames = [f] /\ long_text = String.append f rest /\
                    strlen f <= mtu e - 3) /\
    s' = set_messagesSent (messagesSent s') (set_errorCount (errorCount s') s) /\
    advertising e' = advertising e /\ mtu e' = mtu e /\
    handlerCalls e' = handlerCalls e.
Proof.
  intros s e. split.
  - by_running.
  - apply (notify_frame_cap long_text s e). by_running.
Defined.

(** ** [begin] and [end] *)

(** X3.  [begin] returns true exactly when the engine is not initialised,
    the name is a non-empty string and every one of the six stack calls
    succeeds. *)
Theorem begin_succeeds_iff (name : option string) (pw iv : Z)
    (su cu : option string) (r : StackResults) (now : Z) (s : BeamLink) (e : Env) :
  fst (fst (begin name pw iv su cu r now s e)) = true <->
  initialized s = false /\
  (exists devName, name = Some devName /\ devName <> EmptyString) /\
  r = all_ok.
Proof.
  unfold begin, setupService, startAdvertising, all_ok.
  destruct r as [r1 r2 r3 r4 r5 r6]. cbn [r_createServer r_createService
    r_createCharacteristic r_serviceStart r_getAdvertising r_startAdvertising].
  destruct (initialized s).
  { cbn. split; [discriminate | intros (Hf & _); discriminate]. }
  destruct name as [devName|].
  2:{ cbn. split; [discriminate | intros (_ & (n & Hn & _) & _); discriminate]. }
  destruct devName as [|c devName].
  { cbn. split; [discriminate |].
    intros (_ & (n & Hn & Hne) & _). injection Hn as <-. congruence. }
  assert ((strlen (String c devName) =? 0) = false) as ->.
  { apply Z.eqb_neq. unfold strlen. cbn [String.length]. lia. }
  cbv zeta.
  destruct r1, r2, r3, r4, r5, r6; cbn;
    (split;
     [ intros Hok;
       first [ discriminate Hok
             | split; [reflexivity |];
               split; [eexists; split; [reflexivity | discriminate] | reflexivity] ]
     | intros (_ & _ & Hr); first [reflexivity | discriminate Hr] ]).
Qed.

(** X4.  What a successful [begin] hands to the stack is clamped: the power
    lies in [-12, 9] dBm and is the argument when that is in range; the
    advertising interval lies in [32, 16384] units of 0.625 ms and is
    [ms * 16 / 10] when the argument is in [20, 10240] ms. *)
Theorem begin_clamps_parameters (name : option string) (pw iv : Z)
    (su cu : option string) (r : StackResults) (now : Z) (s : BeamLink) (e : Env)
    (s' : BeamLink) (e' : Env) :
  begin name pw iv su cu r now s e = (true, s', e') ->
  -12 <= txPower e' <= 9 /\
  (-12 <= pw <= 9 -> txPower e' = pw) /\
  32 <= advIntervalUnits e' <= 16384 /\
  (20 <= iv <= 10240 -> advIntervalUnits e' = iv * 16 / 10) /\
  bleDevice e' = name.
Proof.
  unfold begin, setupService, startAdvertising.
  destruct (initialized s); [discriminate |].
  destruct name as [devName|]; [| discriminate].
  destruct (strlen devName =? 0); [discriminate |].
  cbv zeta.
  destruct (r_createServer r), (r_createService r), (r_createCharacteristic r),
    (r_serviceStart r), (r_getAdvertising r), (r_startAdvertising r);
    cbn; intros Heq; try discriminate.
  injection Heq as <- <-. cbn.
  split.
  { destruct ((pw <? -12) || (pw >? 9)) eqn:Hout; [lia |].
    apply orb_false_iff in Hout as [H1 H2].
    apply Z.ltb_ge in H1. rewrite Z.gtb_ltb in H2. apply Z.ltb_ge in H2. lia. }
  split.
  { intros Hin.
    assert ((pw <? -12) || (pw >? 9) = false) as ->; [| reflexivity].
    apply orb_false_iff. split; [apply Z.ltb_ge; lia |].
    rewrite Z.gtb_ltb. apply Z.ltb_ge. lia. }
  split; [lia |].
  split; [| reflexivity].
  intros Hin.
  assert ((iv <? 20) || (iv >? 10240) = false) as ->.
  { apply orb_false_iff. split; [apply Z.ltb_ge; lia |].
    rewrite Z.gtb_ltb. apply Z.ltb_ge. lia. }
  assert (32 <= iv * 16 / 10 <= 16384) as Hunits.
  { split.
    - apply Z.div_le_lower_bound; lia.
    - apply Z.div_le_upper_bound; lia. }
  rewrite wrap16_small by (unfold UINT16_MAX; lia). lia.
Qed.

Lemma begin_clamps_parameters_witness :
  let r := begin (Some "Dev") 20 5 None None all_ok 5 BeamLink_new env0 in
  fst (fst r) = true /\
  txPower (snd r) = 9 /\ advIntervalUnits (snd r) = 32 /\
  -12 <= txPower (snd r) <= 9 /\ 32 <= advIntervalUnits (snd r) <= 16384.
Proof.
  intros r.
  destruct (begin_clamps_parameters (Some "Dev") 20 5 None None all_ok 5
              BeamLink_new env0 (snd (fst r)) (snd r) eq_refl)
    as (Hp & _ & Hu & _).
  split; [reflexivity |].
  split; [reflexivity |].
  split; [reflexivity |].
  split; [exact Hp | exact Hu].
Defined.

(** X5.  [end] on an initialised engine clears the initialised and the
    connected flag and both handles, stops advertising and shuts the stack
    down, and keeps the device name, the handler and the statistics; on an
    engine that is not initialised it does nothing; doing it twice is doing
    it once; and after it [notify] fails, [getMTU] is 23 and [getUptime] 0. *)
Theorem end_releases_engine (s : BeamLink) (e : Env) :
  let s' := fst (end_ s e) in
  let e' := snd (end_ s e) in
  initialized s' = false /\
  (initialized s = false -> s' = s /\ e' = e) /\
  (initialized s = true ->
     isConnected s' = false /\ pServer s' = false /\ pChar s' = false /\
     bleDevice e' = None /\
     (pServer s = true -> advertising e' = false)) /\
  getDeviceName s' = getDeviceName s /\
  messageHandler s' = messageHandler s /\
  getMessagesReceived s' = getMessagesReceived s /\
  getMessagesSent s' = getMessagesSent s /\
  getErrors s' = getErrors s /\
  end_ s' e' = (s', e') /\
  (forall msg, fst (fst (notify msg s' e')) = false) /\
  getMTU s' e' = 23 /\
  (forall now, getUptime now s' = 0).
Proof.
  unfold end_.
  destruct (initialized s) eqn:Hi; cbn.
  - repeat split; try discriminate.
    intros ->. destruct (pServer s); reflexivity.
  - rewrite Hi. repeat split; try discriminate.
    + intros msg. unfold notify. rewrite Hi. reflexivity.
    + unfold getMTU. rewrite Hi. reflexivity.
    + intros now. unfold getUptime. rewrite Hi. reflexivity.
Qed.

Lemma begin_success_identity (name : option string) (pw iv : Z)
    (su cu : option string) (r : StackResults) (now : Z) (s : BeamLink) (e : Env)
    (s' : BeamLink) (e' : Env) :
  begin name pw iv su cu r now s e = (true, s', e') ->
  initialized s' = true /\ name = Some (deviceName s') /\
  serviceUuid s' = default BMLK_SERVICE_UUID su /\
  characteristicUuid s' = default BMLK_CHARACTERISTIC_UUID cu /\
  messageHandler s' = messageHandler s.
Proof.
  unfold begin, setupService, startAdvertising.
  destruct (initialized s); [discriminate |].
  destruct name as [devName|]; [| discriminate].
  destruct (strlen devName =? 0); [discriminate |].
  cbv zeta.
  destruct (r_createServer r), (r_createService r), (r_createCharacteristic r),
    (r_serviceStart r), (r_getAdvertising r), (r_startAdvertising r);
    cbn; intros Heq; try discriminate.
  injection Heq as <- <-. cbn. repeat split.
Qed.

(** X6.  After [end], [begin] can be called again with other parameters: on
    a stack that answers every call it succeeds for any non-empty name,
    takes that name and the UUIDs given, keeps the registered handler, and
    starts from zeroed statistics with no peer connected. *)
Theorem begin_again_after_end (devName : string) (pw iv : Z)
    (su cu : option string) (now : Z) (s : BeamLink) (e : Env) :
  devName <> EmptyString ->
  initialized s = true ->
  exists s' e',
    begin (Some devName) pw iv su cu all_ok now (fst (end_ s e)) (snd (end_ s e))
    = (true, s', e') /\
    initialized s' = true /\
    getDeviceName s' = devName /\
    messageHandler s' = messageHandler s /\
    getMessagesReceived s' = 0 /\ getMessagesSent s' = 0 /\ getErrors s' = 0 /\
    startTime s' = now /\
    isConnected s' = false /\
    advertising e' = true.
Proof.
  intros Hne Hi.
  assert (initialized (fst (end_ s e)) = false) as Hended
    by (unfold end_; rewrite Hi; reflexivity).
  assert (fst (fst (begin (Some devName) pw iv su cu all_ok now
                      (fst (end_ s e)) (snd (end_ s e)))) = true) as Hok.
  { unfold begin, setupService, startAdvertising. rewrite Hended.
    destruct devName as [|c devName]; [congruence |].
    assert ((strlen (String c devName) =? 0) = false) as ->.
    { apply Z.eqb_neq. unfold strlen. cbn [String.length]. lia. }
    reflexivity. }
  pose proof (begin_success_identity (Some devName) pw iv su cu all_ok now
                (fst (end_ s e)) (snd (end_ s e))) as Hid.
  pose proof (begin_success_handles (Some devName) pw iv su cu all_ok now
                (fst (end_ s e)) (snd (end_ s e))) as Hzero.
  destruct (begin (Some devName) pw iv su cu all_ok now
              (fst (end_ s e)) (snd (end_ s e))) as [[ok s'] e'].
  cbn [fst] in Hok. subst ok.
  destruct (Hid s' e' eq_refl) as (Hinit & Hname & _ & _ & Hh).
  destruct (Hzero s' e' eq_refl)
    as (_ & _ & Hrx & Htx & Her & Hst & Hconn & Hadv & _).
  exists s', e'.
  split; [reflexivity |].
  split; [exact Hinit |].
  split; [unfold getDeviceName; congruence |].
  split; [rewrite Hh; unfold end_; rewrite Hi; reflexivity |].
  repeat split; try assumption.
  unfold isConnected. rewrite Hconn.
  unfold end_. rewrite Hi. reflexivity.
Qed.

Lemma begin_again_after_end_witness :
  "Dev2" <> EmptyString /\ initialized started_engine = true /\
  exists s' e',
    begin (Some "Dev2") 6 200 None None all_ok 9
      (fst (end_ started_engine started_env)) (snd (end_ started_engine started_env))
    = (true, s', e') /\
    initialized s' = true /\
    getDeviceName s' = "Dev2" /\
    messageHandler s' = messageHandler started_engine /\
    getMessagesReceived s' = 0 /\ getMessagesSent s' = 0 /\ getErrors s' = 0 /\
    startTime s' = 9 /\
    isConnected s' = false /\
    advertising e' = true.
Proof.
  split; [discriminate |].
  split; [reflexivity |].
  apply (begin_again_after_end "Dev2" 6 200 None None 9 started_engine started_env);
    [discriminate | reflexivity].
Defined.

(** ** The receive path *)

(** What a sequence of replies leaves alone. *)
Lemma send_replies_frame (replies : list string) (s : BeamLink) (e : Env) :
  3 <= mtu e <= UINT16_MAX ->
  let s' := fst (send_replies replies s e) in
  let e' := snd (send_replies replies s e) in
  s' = set_messagesSent (messagesSent s') (set_errorCount (errorCount s') s) /\
  advertising e' = advertising e /\ mtu e' = mtu e /\
  handlerCalls e' = handlerCalls e.
Proof.
  revert s e. induction replies as [|msg rest IH]; intros s e Hmtu; cbn.
  - destruct s; repeat split.
  - assert (exists ok s1 e1,
              notify msg s e = (ok, s1, e1) /\
              s1 = set_messagesSent (messagesSent s1)
                     (set_errorCount (errorCount s1) s) /\
              advertising e1 = advertising e /\ mtu e1 = mtu e /\
              handlerCalls e1 = handlerCalls e)
      as (ok & s1 & e1 & -> & Hs1 & Hadv & Hm & Hh).
    { destruct (notify_cases msg s e Hmtu) as [-> | [[_ ->] | [_ ->]]];
        eexists _, _, _; (split; [reflexivity |]); destruct s; repeat split. }
    specialize (IH s1 e1). rewrite Hm in IH. specialize (IH Hmtu).
    cbn in IH. destruct IH as (Hs' & Hadv' & Hm' & Hh').
    repeat split; try congruence.
    rewrite Hs'. rewrite Hs1. reflexivity.
Qed.

(** X7.  A non-empty inbound frame is counted once in [received]; with a
    handler registered the handler is called once, with the frame's text;
    with none the frame is dropped and nothing else changes.  The inbound
    path changes neither the name, the flags nor the handler itself. *)
Theorem onWrite_counts_and_dispatches (rxValue : string) (s : BeamLink) (e : Env) :
  rxValue <> EmptyString ->
  3 <= mtu e <= UINT16_MAX ->
  let s' := fst (onWrite rxValue s e) in
  let e' := snd (onWrite rxValue s e) in
  getMessagesReceived s' = incr32 (getMessagesReceived s) /\
  (messageHandler s = None ->
   s' = set_messagesReceived (incr32 (messagesReceived s)) s /\ e' = e) /\
  (messageHandler s <> None ->
   handlerCalls e' = (handlerCalls e ++ [rxValue])%list) /\
  getDeviceName s' = getDeviceName s /\
  isConnected s' = isConnected s /\
  initialized s' = initialized s /\
  messageHandler s' = messageHandler s.
Proof.
  intros Hne Hmtu. unfold onWrite.
  assert ((strlen rxValue >? 0) = true) as ->.
  { apply Z.gtb_lt. destruct rxValue; [congruence |].
    unfold strlen. cbn [String.length]. lia. }
  cbn [messageHandler set_messagesReceived].
  destruct (messageHandler s) as [h|] eqn:Hh.
  - pose proof (send_replies_frame (h rxValue)
                  (set_messagesReceived (incr32 (messagesReceived s)) s)
                  (env_log_handler rxValue e) Hmtu) as Hframe.
    cbn zeta in Hframe. destruct Hframe as (Hs' & _ & _ & Hcalls).
    cbn zeta. rewrite Hs'. cbn.
    repeat split; try congruence.
    intros _. rewrite Hcalls. reflexivity.
  - cbn. repeat split; congruence.
Qed.

Lemma onWrite_counts_and_dispatches_witness :
  "ping" <> EmptyString /\ 3 <= mtu (snd serving) <= UINT16_MAX /\
  getMessagesReceived (fst (onWrite "ping" (fst serving) (snd serving))) = 1 /\
  handlerCalls (snd (onWrite "ping" (fst serving) (snd serving))) = ["ping"] /\
  notified (snd (onWrite "ping" (fst serving) (snd serving))) = ["Echo: ping"].
Proof.
  split; [discriminate |].
  split; [by_running |].
  destruct (onWrite_counts_and_dispatches "ping" (fst serving) (snd serving))
    as (Hrx & _ & Hcalls & _); [discriminate | by_running |].
  split; [rewrite Hrx; reflexivity |].
  split; [rewrite Hcalls; [reflexivity | discriminate] | reflexivity].
Defined.

(** Replies that fit go out in order. *)
Lemma send_replies_in_order (replies : list string) (s : BeamLink) (e : Env) :
  initialized s = true -> pChar s = true -> deviceConnected s = true ->
  3 <= mtu e <= UINT16_MAX ->
  Forall (fun msg => 0 < strlen msg <= mtu e - 3) replies ->
  0 <= messagesSent s <= UINT32_MAX ->
  let s' := fst (send_replies replies s e) in
  let e' := snd (send_replies replies s e) in
  notified e' = (notified e ++ replies)%list /\
  errorCount s' = errorCount s /\
  messagesSent s' = wrap32 (messagesSent s + Z.of_nat (length replies)).
Proof.
  revert s e.
  induction replies as [|msg rest IH]; intros s e Hi Hc Hd Hmtu Hfit Hsent; cbn.
  - rewrite app_nil_r, Z.add_0_r, wrap32_small by exact Hsent. repeat split.
  - apply Forall_cons in Hfit as [Hmsg Hrest].
    rewrite (notify_fits msg s e Hi Hc Hd Hmtu Hmsg).
    specialize (IH (set_messagesSent (incr32 (messagesSent s)) s)
                   (char_notify (char_setValue msg e))).
    cbn in IH.
    destruct (IH Hi Hc Hd Hmtu Hrest (incr32_range _)) as (Hn & He & Hs).
    repeat split.
    + rewrite Hn. rewrite <- app_assoc. reflexivity.
    + exact He.
    + rewrite Hs. unfold incr32, wrap32.
      rewrite Zplus_mod_idemp_l. f_equal. lia.
Qed.

(** X8.  On an engine that serves a peer, when every reply of the handler
    is non-empty and fits the MTU, the replies to an inbound frame are
    transmitted unchanged and in the order the handler issued them, one frame
    each; [sent] goes up by their number and no error is counted. *)
Theorem onWrite_replies_in_order (rxValue : string) (h : MessageHandler)
    (s : BeamLink) (e : Env) :
  rxValue <> EmptyString ->
  messageHandler s = Some h ->
  initialized s = true -> pChar s = true -> isConnected s = true ->
  3 <= mtu e <= UINT16_MAX ->
  Forall (fun msg => 0 < strlen msg <= mtu e - 3) (h rxValue) ->
  0 <= getMessagesSent s <= UINT32_MAX ->
  let s' := fst (onWrite rxValue s e) in
  let e' := snd (onWrite rxValue s e) in
  notified e' = (notified e ++ h rxValue)%list /\
  getErrors s' = getErrors s /\
  getMessagesSent s' = wrap32 (getMessagesSent s + Z.of_nat (length (h rxValue))) /\
  (getMessagesSent s + Z.of_nat (length (h rxValue)) <= UINT32_MAX ->
   getMessagesSent s' = getMessagesSent s + Z.of_nat (length (h rxValue))).
Proof.
  intros Hne Hh Hi Hc Hd Hmtu Hfit Hsent. unfold onWrite.
  assert ((strlen rxValue >? 0) = true) as ->.
  { apply Z.gtb_lt. destruct rxValue; [congruence |].
    unfold strlen. cbn [String.length]. lia. }
  cbn [messageHandler set_messagesReceived]. rewrite Hh.
  pose proof (send_replies_in_order (h rxValue)
                (set_messagesReceived (incr32 (messagesReceived s)) s)
                (env_log_handler rxValue e) Hi Hc Hd Hmtu Hfit Hsent) as Hsend.
  cbn zeta in *. destruct Hsend as (Hn & He & Hs).
  split; [exact Hn |]. split; [exact He |].
  split; [exact Hs |].
  intros Hhi. unfold getMessagesSent in *. rewrite Hs. cbn.
  apply wrap32_small. lia.
Qed.

Lemma onWrite_replies_in_order_witness :
  let s := fst serving in
  let e := snd serving in
  ("ping" <> EmptyString /\ messageHandler s = Some echo /\
   initialized s = true /\ pChar s = true /\ isConnected s = true /\
   3 <= mtu e <= UINT16_MAX /\
   Forall (fun msg => 0 < strlen msg <= mtu e - 3) (echo "ping") /\
   0 <= getMessagesSent s <= UINT32_MAX) /\
  notified (snd (onWrite "ping" s e)) = (notified e ++ echo "ping")%list /\
  getErrors (fst (onWrite "ping" s e)) = getErrors s.
Proof.
  intros s e.
  assert (Forall (fun msg => 0 < strlen msg <= mtu e - 3) (echo "ping")) as Hfit.
  { constructor; [by_running | constructor]. }
  assert (3 <= mtu e <= UINT16_MAX) as Hmtu by by_running.
  assert (0 <= getMessagesSent s <= UINT32_MAX) as Hsent by by_running.
  split.
  { split; [discriminate |].
    split; [reflexivity |].
    split; [reflexivity |].
    split; [reflexivity |].
    split; [reflexivity |].
    split; [exact Hmtu |].
    split; [exact Hfit | exact Hsent]. }
  destruct (onWrite_replies_in_order "ping" echo s e
              ltac:(discriminate) eq_refl eq_refl eq_refl eq_refl Hmtu Hfit Hsent)
    as (Hn & He & _).
  split; [exact Hn | exact He].
Defined.

(** ** Uptime and connection events *)

(** X9.  [getUptime] is 0 before [begin]; on an initialised engine it is
    the time elapsed since the start time, also when [millis()] has wrapped
    around in between, as long as less than [2^32] ms have elapsed. *)
Theorem getUptime_elapsed (elapsed : Z) (s : BeamLink) :
  0 <= startTime s <= UINT32_MAX ->
  0 <= elapsed <= UINT32_MAX ->
  getUptime (wrap32 (startTime s + elapsed)) s
  = if initialized s then elapsed else 0.
Proof.
  intros Hst Hel. unfold getUptime.
  destruct (initialized s); [| reflexivity]. cbn.
  unfold wrap32, UINT32_MAX in *.
  rewrite Zminus_mod_idemp_l.
  replace (startTime s + elapsed - startTime s) with elapsed by lia.
  apply Z.mod_small. lia.
Qed.

Lemma getUptime_elapsed_witness :
  let s := resetStats 4294967000 started_engine in
  (0 <= startTime s <= UINT32_MAX /\ 0 <= 1000 <= UINT32_MAX) /\
  wrap32 (startTime s + 1000) = 704 /\
  getUptime 704 s = 1000.
Proof.
  intros s. split; [by_running |].
  split; [reflexivity |].
  exact (getUptime_elapsed 1000 s ltac:(by_running) ltac:(by_running)).
Defined.

(** X10.  Connect and disconnect events change nothing of the engine but
    the connected flag, and after any sequence of them the flag tells the
    last one: set after a connect, cleared after a disconnect, with the stack
    advertising again if it accepted the request. *)
Theorem events_track_last (evs : list StackEvent) (ev : StackEvent)
    (s : BeamLink) (e : Env) :
  let s' := fst (handle_events (evs ++ [ev]) s e) in
  let e' := snd (handle_events (evs ++ [ev]) s e) in
  s' = set_deviceConnected (isConnected s') s /\
  isConnected s' = match ev with EvConnect => true | EvDisconnect _ => false end /\
  (ev = EvDisconnect true -> advertising e' = true) /\
  mtu e' = mtu e /\ notified e' = notified e.
Proof.
  revert s e. induction evs as [|ev0 evs IH]; intros s e.
  - destruct ev as [|[]]; destruct s; cbn; repeat split; discriminate.
  - cbn [app handle_events].
    destruct (handle_event ev0 s e) as [s1 e1] eqn:Hstep.
    specialize (IH s1 e1). cbn zeta in IH.
    destruct IH as (Hs' & Hflag & Hadv & Hm & Hn).
    assert (exists b, s1 = set_deviceConnected b s /\
                      mtu e1 = mtu e /\ notified e1 = notified e)
      as (b & -> & Hm1 & Hn1).
    { destruct ev0 as [|[]]; cbn in Hstep; injection Hstep as <- <-;
        eexists; repeat split. }
    cbn zeta. repeat split; try assumption; try congruence.
Qed.

End EngineMore.

(** * Further properties of the state store *)

Section StoreMore.

Import NexState.
Context `{FloatOps}.

Lemma with_stateValues_same (s : NexState) : with_stateValues (stateValues s) s = s.
Proof. destruct s; reflexivity. Qed.

(** [!=] is the negation of equality at the kinds other than [float]. *)
Lemma neq_false_eq (k : Kind) (a b : ctype k) :
  k <> KFloat -> neq k a b = false -> a = b.
Proof.
  destruct k; cbn; intros Hk Hneq; try congruence.
  - apply negb_false_iff in Hneq. apply Bool.eqb_prop. exact Hneq.
  - apply negb_false_iff in Hneq. apply Z.eqb_eq. exact Hneq.
  - apply negb_false_iff in Hneq. apply String.eqb_eq. exact Hneq.
Qed.

Lemma get_if_markAsRead (k : Kind) (v : StateValueVariant) :
  get_if k (v_markAsRead v) = sv_markAsRead <$> get_if k v.
Proof. destruct k, v; reflexivity. Qed.

(** Marking entries as read changes no value. *)
Lemma get_marked (k : Kind) (key : string) (dflt : ctype k) (s s' : NexState) :
  stateValues s' = v_markAsRead <$> stateValues s ->
  get k key dflt s' = get k key dflt s.
Proof.
  intros Hm. unfold get. rewrite Hm, lookup_fmap.
  destruct (stateValues s !! key) as [v|]; cbn; [| reflexivity].
  rewrite get_if_markAsRead. destruct (get_if k v); reflexivity.
Qed.

Lemma get_same_values (k : Kind) (key : string) (dflt : ctype k) (s s' : NexState) :
  stateValues s' = stateValues s -> get k key dflt s' = get k key dflt s.
Proof. intros Hm. unfold get. rewrite Hm. reflexivity. Qed.

Lemma upsert_entry_inject (k : Kind) (key : string) (value : ctype k) (s : NexState) :
  exists sv, upsert_entry k key value s = inject k sv /\
             (currentValue sv = value \/ neq k value (currentValue sv) = false).
Proof.
  unfold upsert_entry.
  destruct (stateValues s !! key) as [v|].
  - destruct (get_if k v) as [sv|].
    + eexists. split; [reflexivity |]. unfold setValue.
      destruct (neq k value (currentValue sv)) eqn:Hneq; cbn; auto.
    + eexists. split; [reflexivity |]. cbn. auto.
  - eexists. split; [reflexivity |]. cbn. auto.
Qed.

(** X11.  After [set<T>(key, v)], [get<T>(key, d)] gives [v] back for
    every default [d], at the kinds [bool], [int] and text; at [float] it
    gives back [v] or a value that [v] does not differ from (an entry is not
    rewritten by a value that compares equal to it). *)
Theorem get_after_set (k : Kind) (key : string) (v dflt : ctype k) (now : Z)
    (s : NexState) :
  let s' := fst (set k key v now s) in
  (get k key dflt s' = v \/ neq k v (get k key dflt s') = false) /\
  (k <> KFloat -> get k key dflt s' = v) /\
  is_Some (stateValues s' !! key).
Proof.
  intros s'.
  destruct (upsert_entry_inject k key v s) as (sv & Hup & Hcur).
  assert (exists sv', stateValues s' !! key = Some (inject k sv') /\
                      currentValue sv' = currentValue sv) as (sv' & Hl & Hsame).
  { subst s'. destruct (set_lookup k key v now s) as [-> | ->]; rewrite Hup.
    - eauto.
    - rewrite v_markAsRead_inject. eexists. split; [reflexivity | reflexivity]. }
  rewrite (get_lookup _ _ _ dflt _ Hl), Hsame.
  split; [exact Hcur |].
  split; [| rewrite Hl; eauto].
  intros Hk. destruct Hcur as [Heq | Hneq]; [exact Heq |].
  symmetry. apply (neq_false_eq k); assumption.
Qed.

(** X12.  [set] on one key changes the value of no other key, and it adds
    one entry when the key is new and none when the key exists. *)
Theorem set_leaves_other_keys (k k' : Kind) (key key' : string) (v : ctype k)
    (dflt : ctype k') (now : Z) (s : NexState) :
  key' <> key ->
  get k' key' dflt (fst (set k key v now s)) = get k' key' dflt s /\
  size (fst (set k key v now s))
  = match stateValues s !! key with Some _ => size s | None => S (size s) end.
Proof.
  intros Hne.
  assert (forall m : gmap string StateValueVariant,
            base.size (v_markAsRead <$> m) = base.size m) as Hsize.
  { intros m. apply map_size_fmap. }
  assert (base.size (<[key := upsert_entry k key v s]> (stateValues s))
          = match stateValues s !! key with Some _ => size s | None => S (size s) end) as Hins.
  { unfold size. destruct (stateValues s !! key) as [v0|] eqn:Hv.
    - rewrite map_size_insert_Some; eauto.
    - rewrite map_size_insert_None; eauto. }
  unfold size in *.
  destruct (set_values k key v now s) as [Hm | Hm]; cbv zeta in Hm.
  - split.
    + unfold get. rewrite Hm, lookup_insert_ne by congruence. reflexivity.
    + rewrite Hm. exact Hins.
  - split.
    + unfold get. rewrite Hm, lookup_fmap, lookup_insert_ne by congruence.
      destruct (stateValues s !! key') as [v0|]; cbn; [| reflexivity].
      rewrite get_if_markAsRead. destruct (get_if k' v0); reflexivity.
    + rewrite Hm, Hsize. exact Hins.
Qed.

(** ** Entries of another kind, and keys that are absent *)

(** X13.  When [key] holds no entry of kind [T] (it is absent, or holds an
    entry of another kind), [get<T>] gives the default, [hasChanged<T>] is
    false and [markAsRead<T>] changes nothing; [set<T>(key, v)] then puts a
    fresh clean entry of kind [T] under the key, replacing what was there:
    [get<T>] gives [v], [hasChanged<T>] is false, and [get] at every other
    kind gives its default. *)
Theorem no_entry_of_kind (k : Kind) (key : string) (v dflt : ctype k) (now : Z)
    (s : NexState) :
  stateValues s !! key ≫= get_if k = None ->
  get k key dflt s = dflt /\
  hasChanged k key s = false /\
  markAsRead k key s = s /\
  let s' := fst (set k key v now s) in
  get k key dflt s' = v /\
  hasChanged k key s' = false /\
  (forall k' (dflt' : ctype k'), k' <> k -> get k' key dflt' s' = dflt').
Proof.
  intros Hnone.
  assert (upsert_entry k key v s = inject k (StateValue_init v)) as Hup.
  { unfold upsert_entry. destruct (stateValues s !! key) as [v0|]; [| reflexivity].
    cbn in Hnone. rewrite Hnone. reflexivity. }
  split.
  { unfold get. destruct (stateValues s !! key) as [v0|]; [| reflexivity].
    cbn in Hnone. rewrite Hnone. reflexivity. }
  split.
  { unfold hasChanged. destruct (stateValues s !! key) as [v0|]; [| reflexivity].
    cbn in Hnone. rewrite Hnone. reflexivity. }
  split.
  { unfold markAsRead. destruct (stateValues s !! key) as [v0|]; [| reflexivity].
    cbn in Hnone. rewrite Hnone. reflexivity. }
  intros s'.
  assert (stateValues s' !! key = Some (inject k (StateValue_init v))) as Hl.
  { subst s'. destruct (set_lookup k key v now s) as [-> | ->]; rewrite Hup;
      [reflexivity |]. rewrite v_markAsRead_inject. reflexivity. }
  split; [rewrite (get_lookup _ _ _ dflt _ Hl); reflexivity |].
  split; [rewrite (hasChanged_lookup _ _ _ _ Hl); reflexivity |].
  intros k' dflt' Hk'. unfold get. rewrite Hl.
  destruct k, k'; try congruence; reflexivity.
Qed.

(** ** The change queries agree with one another *)

Lemma getChangedKeys_spec (key : string) (s : NexState) :
  key ∈ getChangedKeys s <->
  exists v, stateValues s !! key = Some v /\ v_hasChanged v = true.
Proof.
  unfold getChangedKeys, entries. rewrite list_elem_of_fmap. split.
  - intros ([key' v] & -> & Hin). apply list_elem_of_filter in Hin as [Hch Hin].
    apply elem_of_map_to_list in Hin. cbn in *. eauto.
  - intros (v & Hv & Hch). exists (key, v). split; [reflexivity |].
    apply list_elem_of_filter. split; [exact Hch |].
    apply elem_of_map_to_list. exact Hv.
Qed.

Lemma hasAnyChanged_spec (s : NexState) :
  hasAnyChanged s = true <->
  exists key v, stateValues s !! key = Some v /\ v_hasChanged v = true.
Proof.
  unfold hasAnyChanged, entries. rewrite existsb_exists. split.
  - intros ([key v] & Hin & Hch). apply list_elem_of_In in Hin.
    apply elem_of_map_to_list in Hin. eauto.
  - intros (key & v & Hv & Hch). exists (key, v). split; [| exact Hch].
    apply list_elem_of_In. apply elem_of_map_to_list. exact Hv.
Qed.

Lemma change_queries (s : NexState) :
  (forall key, key ∈ getChangedKeys s <->
               exists v, stateValues s !! key = Some v /\ v_hasChanged v = true) /\
  NoDup (getChangedKeys s) /\
  (hasAnyChanged s = true <-> getChangedKeys s <> []) /\
  (forall k key, hasChanged k key s = true -> key ∈ getChangedKeys s).
Proof.
  split; [intros key; apply getChangedKeys_spec |].
  split.
  { unfold getChangedKeys, entries.
    apply NoDup_fmap_fst.
    - intros key v1 v2 [_ H1]%list_elem_of_filter [_ H2]%list_elem_of_filter.
      apply elem_of_map_to_list in H1, H2. congruence.
    - apply NoDup_filter, NoDup_map_to_list. }
  split.
  { rewrite hasAnyChanged_spec. split.
    - intros (key & v & Hv & Hch) Hnil.
      assert (key ∈ getChangedKeys s) as Hin by (apply getChangedKeys_spec; eauto).
      rewrite Hnil in Hin. inversion Hin.
    - intros Hne. destruct (getChangedKeys s) as [|key l] eqn:Hl; [congruence |].
      assert (key ∈ getChangedKeys s) as Hin by (rewrite Hl; left).
      apply getChangedKeys_spec in Hin. eauto. }
  intros k key Hch. apply getChangedKeys_spec.
  unfold hasChanged in Hch.
  destruct (stateValues s !! key) as [v|]; [| discriminate].
  exists v. split; [reflexivity |].
  destruct k, v; cbn in *; congruence.
Qed.

(** X14.  [getChangedKeys] lists exactly the keys whose entry has its flag
    raised, each once; [hasAnyChanged] is true exactly when that list is not
    empty; and [hasChanged<T>(key)] being true puts [key] in the list. *)
Theorem change_queries_agree (s : NexState) :
  (forall key, key ∈ getChangedKeys s <->
               exists v, stateValues s !! key = Some v /\ v_hasChanged v = true) /\
  NoDup (getChangedKeys s) /\
  (hasAnyChanged s = true <-> getChangedKeys s <> []) /\
  (forall k key, hasChanged k key s = true -> key ∈ getChangedKeys s).
Proof. exact (change_queries s). Qed.

(** ** Marking as read and printing *)

Lemma all_marked_clean (s : NexState) (m : gmap string StateValueVariant) :
  stateValues s = v_markAsRead <$> m ->
  hasAnyChanged s = false /\ getChangedKeys s = [].
Proof.
  intros Hm.
  assert (hasAnyChanged s = false) as Hany.
  { destruct (hasAnyChanged s) eqn:Hany; [| reflexivity].
    apply hasAnyChanged_spec in Hany as (key & v & Hv & Hch).
    rewrite Hm, lookup_fmap in Hv.
    destruct (m !! key) as [v0|]; [| discriminate].
    injection Hv as <-. rewrite v_hasChanged_markAsRead in Hch. discriminate. }
  split; [exact Hany |].
  destruct (getChangedKeys s) as [|key l] eqn:Hl; [reflexivity |].
  assert (hasAnyChanged s = true); [| congruence].
  apply change_queries. rewrite Hl. discriminate.
Qed.

Lemma outputState_enabled (now : Z) (s : NexState) :
  enableSerialOutput (config s) = true ->
  let s' := fst (outputState now s) in
  snd (outputState now s)
  = [SerialPrintln (if enableJsonFormat (config s)
                    then getStateAsJson s else getStateAsText s)] /\
  hasAnyChanged s' = false /\
  getChangedKeys s' = [] /\
  lastOutputTime s' = now /\
  (forall k key dflt, get k key dflt s' = get k key dflt s) /\
  size s' = size s /\
  config s' = config s /\
  changeCallback s' = changeCallback s.
Proof.
  intros Hon. unfold outputState. rewrite Hon. cbn.
  split; [destruct (enableJsonFormat (config s)); reflexivity |].
  destruct (all_marked_clean
              (with_lastOutputTime now (markAllAsRead s)) (stateValues s) eq_refl)
    as [Hany Hkeys].
  split; [exact Hany |]. split; [exact Hkeys |].
  split; [reflexivity |].
  split; [intros k key dflt; apply get_marked; reflexivity |].
  split; [apply map_size_fmap |].
  split; reflexivity.
Qed.

(** X15.  With the serial output on, [outputState] prints exactly one line,
    the JSON or the plain snapshot of the store as it stands, according to
    [enableJsonFormat]; afterwards no entry is dirty and [lastOutputTime] is
    the current time, while every value, the number of entries, the
    configuration and the subscriber are as before. *)
Theorem outputState_prints_and_clears (now : Z) (s : NexState) :
  enableSerialOutput (config s) = true ->
  let s' := fst (outputState now s) in
  snd (outputState now s)
  = [SerialPrintln (if enableJsonFormat (config s)
                    then getStateAsJson s else getStateAsText s)] /\
  hasAnyChanged s' = false /\
  getChangedKeys s' = [] /\
  lastOutputTime s' = now /\
  (forall k key dflt, get k key dflt s' = get k key dflt s) /\
  size s' = size s /\
  config s' = config s /\
  changeCallback s' = changeCallback s.
Proof. exact (outputState_enabled now s). Qed.

(** ** [set] and the on-change output *)

(** X16.  A [set] that does not change the value of an existing entry of
    the same kind, on a store in which nothing is dirty (or whose on-change
    output is off), is without any effect: the store is returned as it was
    and nothing is printed. *)
Theorem redundant_set_is_silent (k : Kind) (key : string) (v : ctype k)
    (sv : StateValue (ctype k)) (now : Z) (s : NexState) :
  stateValues s !! key = Some (inject k sv) ->
  neq k v (currentValue sv) = false ->
  hasAnyChanged s = false \/ on_change_output (config s) = false ->
  set k key v now s = (s, []).
Proof.
  intros Hv Hsame Hquiet.
  assert (upsert_entry k key v s = inject k sv) as Hup.
  { rewrite (upsert_entry_same_kind _ _ _ _ _ Hv).
    unfold setValue. rewrite Hsame. reflexivity. }
  unfold set. cbv zeta. rewrite Hup, (insert_id _ _ _ Hv), with_stateValues_same.
  unfold checkAndOutput, outputState, on_change_output in *.
  destruct (outputOnChange (config s)); [| reflexivity].
  destruct (enableChangeDetection (config s)); [| reflexivity].
  destruct Hquiet as [-> | Hoff]; [reflexivity |].
  cbn in Hoff. rewrite Hoff. cbn.
  destruct (hasAnyChanged s); reflexivity.
Qed.

(** X17.  With the on-change output on (the three switches
    [outputOnChange], [enableChangeDetection], [enableSerialOutput]), a [set]
    prints at most one line and leaves no entry dirty: right after any [set],
    [hasAnyChanged] and every [hasChanged] are false.  A [set] that changes
    the value of an existing entry prints exactly one snapshot, and that
    snapshot shows the new value. *)
Theorem set_on_change_prints_and_clears (k : Kind) (key : string) (v : ctype k)
    (now : Z) (s : NexState) :
  on_change_output (config s) = true ->
  let s' := fst (set k key v now s) in
  let out := snd (set k key v now s) in
  hasAnyChanged s' = false /\
  (forall k' key', hasChanged k' key' s' = false) /\
  (length out <= 1)%nat /\
  (forall sv, stateValues s !! key = Some (inject k sv) ->
              neq k v (currentValue sv) = true ->
     let s1 := with_stateValues
                 (<[key := inject k (mkStateValue v (currentValue sv) true)]>
                    (stateValues s)) s in
     out = [SerialPrintln (if enableJsonFormat (config s)
                           then getStateAsJson s1 else getStateAsText s1)] /\
     (forall dflt, get k key dflt s' = v) /\
     s' = with_lastOutputTime now (markAllAsRead s1)).
Proof.
  intros Hon. unfold on_change_output in Hon.
  apply andb_true_iff in Hon as [Hon Hserial].
  apply andb_true_iff in Hon as [Hchange Hdetect].
  set (s1 := with_stateValues (<[key := upsert_entry k key v s]> (stateValues s)) s).
  assert (set k key v now s
          = if hasAnyChanged s1 then outputState now s1 else (s1, [])) as Hset.
  { unfold set, checkAndOutput. cbv zeta. fold s1. cbn.
    rewrite Hchange, Hdetect. reflexivity. }
  assert (enableSerialOutput (config s1) = true) as Hserial1 by exact Hserial.
  pose proof (outputState_enabled now s1 Hserial1) as Hout.
  cbv zeta in Hout. destruct Hout as (Hline & Hany & Hkeys & _).
  intros s' out. subst s' out. rewrite Hset.
  assert (hasAnyChanged (fst (if hasAnyChanged s1
                              then outputState now s1 else (s1, []))) = false)
    as Hclean.
  { destruct (hasAnyChanged s1) eqn:Hd; [exact Hany | exact Hd]. }
  split; [exact Hclean |].
  split.
  { intros k' key'.
    destruct (hasChanged k' key' _) eqn:Hch; [| reflexivity].
    apply change_queries in Hch.
    apply getChangedKeys_spec in Hch as (v0 & Hv0 & Hc0).
    assert (hasAnyChanged (fst (if hasAnyChanged s1
                                then outputState now s1 else (s1, []))) = true)
      by (apply hasAnyChanged_spec; eauto).
    congruence. }
  split.
  { destruct (hasAnyChanged s1); [rewrite Hline |]; cbn; lia. }
  intros sv Hv Hneq s2.
  assert (upsert_entry k key v s = inject k (mkStateValue v (currentValue sv) true))
    as Hup.
  { rewrite (upsert_entry_same_kind _ _ _ _ _ Hv).
    unfold setValue. rewrite Hneq. reflexivity. }
  assert (s1 = s2) as Heq by (subst s1 s2; rewrite Hup; reflexivity).
  assert (hasAnyChanged s1 = true) as Hdirty.
  { apply hasAnyChanged_spec. exists key. eexists.
    split; [subst s1; cbn; apply lookup_insert_eq |].
    rewrite Hup. destruct k; reflexivity. }
  rewrite Hdirty, Hline, Heq.
  assert (fst (outputState now s2) = with_lastOutputTime now (markAllAsRead s2))
    as Hfst.
  { unfold outputState. rewrite <- Heq, Hserial1. reflexivity. }
  split; [reflexivity |].
  split; [| exact Hfst].
  intros dflt. rewrite Hfst.
  rewrite (get_marked k key dflt s2) by reflexivity.
  apply get_lookup with (sv := mkStateValue v (currentValue sv) true).
  subst s2. cbn. apply lookup_insert_eq.
Qed.

(** ** The periodic output *)

(** X18.  [update] does nothing when [outputOnInterval] is off or when less
    than [outputIntervalMs] have passed since the last output (the difference
    being taken on 32 bits, so across a wrap of [millis()]).  Otherwise it
    performs the output pass and sets [lastOutputTime] to the current time,
    and any further [update] less than the interval later does nothing. *)
Theorem update_rate_limited (now : Z) (s : NexState) :
  let elapsed := wrap32 (now - lastOutputTime s) in
  (outputOnInterval (config s) = false \/ elapsed < outputIntervalMs (config s) ->
   update now s = (s, [])) /\
  (outputOnInterval (config s) = true ->
   outputIntervalMs (config s) <= elapsed ->
   let s' := fst (update now s) in
   lastOutputTime s' = now /\
   snd (update now s) = snd (outputState now s) /\
   (enableSerialOutput (config s) = true -> hasAnyChanged s' = false) /\
   (forall now', wrap32 (now' - now) < outputIntervalMs (config s) ->
                 update now' s' = (s', []))).
Proof.
  intros elapsed. split.
  - intros Hidle. unfold update.
    destruct Hidle as [-> | Hearly]; [reflexivity |].
    fold elapsed.
    assert ((elapsed >=? outputIntervalMs (config s)) = false) as ->.
    { rewrite Z.geb_leb. apply Z.leb_gt. exact Hearly. }
    rewrite andb_false_r. reflexivity.
  - intros Hon Hdue s'. subst s'. unfold update. fold elapsed. rewrite Hon.
    assert ((elapsed >=? outputIntervalMs (config s)) = true) as ->.
    { rewrite Z.geb_leb. apply Z.leb_le. exact Hdue. }
    cbn [andb].
    assert (config (fst (outputState now s)) = config s) as Hcfg.
    { unfold outputState. destruct (enableSerialOutput (config s)); reflexivity. }
    pose proof (outputState_enabled now s) as Hclear.
    destruct (outputState now s) as [s1 out]. cbn [fst snd] in *.
    split; [reflexivity |]. split; [reflexivity |].
    split.
    { intros Hserial. destruct (Hclear Hserial) as (_ & Hany & _).
      unfold hasAnyChanged, entries in *. exact Hany. }
    intros now' Hearly. unfold update. cbn [config lastOutputTime with_lastOutputTime].
    rewrite Hcfg.
    assert ((wrap32 (now' - now) >=? outputIntervalMs (config s)) = false) as ->.
    { rewrite Z.geb_leb. apply Z.leb_gt. exact Hearly. }
    rewrite andb_false_r. reflexivity.
Qed.

(** ** [clear] *)

(** X20.  [clear] removes every entry: the store is then empty, no key is
    dirty, every [get] gives its default and every [hasChanged] is false, and
    the JSON snapshot has an empty state object; the configuration, the
    subscriber and the output time are kept.  A [set] after it finds the key
    new. *)
Theorem clear_empties_store (s : NexState) :
  let s' := clear s in
  size s' = 0%nat /\
  entries s' = [] /\
  getChangedKeys s' = [] /\ hasAnyChanged s' = false /\
  (forall k key dflt, get k key dflt s' = dflt) /\
  (forall k key, hasChanged k key s' = false) /\
  getStateAsJson s' = structured_format (deviceInfo (config s)) [] /\
  config s' = config s /\ changeCallback s' = changeCallback s /\
  lastOutputTime s' = lastOutputTime s /\
  (forall k key v now, size (fst (set k key v now s')) = 1%nat).
Proof.
  cbn zeta.
  assert (entries (clear s) = []) as Hent.
  { unfold entries, clear. cbn. apply map_to_list_empty. }
  split; [unfold size, clear; cbn; apply map_size_empty |].
  split; [exact Hent |].
  split; [unfold getChangedKeys; rewrite Hent; reflexivity |].
  split; [unfold hasAnyChanged; rewrite Hent; reflexivity |].
  split; [intros k key dflt; unfold get, clear; cbn; rewrite lookup_empty; reflexivity |].
  split; [intros k key; unfold hasChanged, clear; cbn; rewrite lookup_empty; reflexivity |].
  split; [rewrite getStateAsJson_structured, Hent; reflexivity |].
  split; [reflexivity |]. split; [reflexivity |]. split; [reflexivity |].
  intros k key v now.
  destruct (set_values k key v now (clear s)) as [Hm | Hm]; cbv zeta in Hm;
    unfold size; rewrite Hm; rewrite ?map_size_fmap;
    cbn; rewrite map_size_insert_None by apply lookup_empty;
    rewrite map_size_empty; reflexivity.
Qed.

End StoreMore.

Section StoreMoreExamples.

Import NexState.
#[local] Existing Instance integral_floats.

Lemma set_leaves_other_keys_witness :
  "count" <> "ledOn" /\
  get KInt "count" 0 (fst (set KBool "ledOn" false 5 dirty_store)) = 42 /\
  size (fst (set KBool "ledOn" false 5 dirty_store)) = 3%nat.
Proof.
  split; [discriminate |].
  destruct (set_leaves_other_keys KBool KInt "ledOn" "count"
              false 0 5 dirty_store ltac:(discriminate)) as [Hget Hsize].
  split; [rewrite Hget | rewrite Hsize]; reflexivity.
Defined.

Lemma no_entry_of_kind_witness :
  stateValues dirty_store !! "count" ≫= get_if KBool = None /\
  get KInt "count" 0 dirty_store = 42 /\
  get KBool "count" true dirty_store = true /\
  get KBool "count" false (fst (set KBool "count" false 5 dirty_store)) = false /\
  get KInt "count" 7 (fst (set KBool "count" false 5 dirty_store)) = 7.
Proof.
  split; [reflexivity |].
  split; [reflexivity |].
  destruct (no_entry_of_kind KBool "count" false true 5 dirty_store eq_refl)
    as (Hget & _ & _ & _ & _ & Hother).
  split; [exact Hget |].
  split; [reflexivity |].
  apply (Hother KInt). discriminate.
Defined.

Lemma outputState_prints_and_clears_witness :
  enableSerialOutput (config dirty_store) = true /\
  getChangedKeys dirty_store = ["count"] /\
  snd (outputState 9 dirty_store) = [SerialPrintln (getStateAsJson dirty_store)] /\
  getChangedKeys (fst (outputState 9 dirty_store)) = [].
Proof.
  split; [reflexivity |].
  split; [by_running |].
  destruct (outputState_prints_and_clears 9 dirty_store eq_refl)
    as (Hline & _ & Hkeys & _).
  split; [exact Hline | exact Hkeys].
Defined.

Lemma redundant_set_is_silent_witness :
  stateValues led_store !! "ledOn" = Some (inject KBool (StateValue_init true)) /\
  neq KBool true (currentValue (StateValue_init true)) = false /\
  set KBool "ledOn" true 2 led_store = (led_store, []).
Proof.
  split; [reflexivity |].
  split; [reflexivity |].
  apply (redundant_set_is_silent KBool "ledOn" true (StateValue_init true) 2 led_store);
    [reflexivity | reflexivity | left; reflexivity].
Defined.

Lemma set_on_change_prints_and_clears_witness :
  let s := fst (set KBool "ledOn" true 1 (NexState_new led_config 0)) in
  on_change_output (config s) = true /\
  hasAnyChanged (fst (set KBool "ledOn" false 2 s)) = false /\
  (length (snd (set KBool "ledOn" false 2 s)) <= 1)%nat /\
  get KBool "ledOn" true (fst (set KBool "ledOn" false 2 s)) = false.
Proof.
  intros s. split; [reflexivity |].
  destruct (set_on_change_prints_and_clears KBool "ledOn" false 2 s eq_refl)
    as (Hany & _ & Hlen & _).
  split; [exact Hany |]. split; [exact Hlen | reflexivity].
Defined.

Lemma update_rate_limited_witness :
  let cfg := mkConfig true true true 1000 false true led_device in
  let s := fst (set KBool "ledOn" true 1 (NexState_new cfg 0)) in
  update 999 s = (s, []) /\
  lastOutputTime (fst (update 1000 s)) = 1000 /\
  update 1999 (fst (update 1000 s)) = (fst (update 1000 s), []).
Proof.
  intros cfg s.
  destruct (update_rate_limited 999 s) as [Hidle _].
  destruct (update_rate_limited 1000 s) as [_ Hdue].
  split; [apply Hidle; right; by_running |].
  destruct (Hdue eq_refl ltac:(by_running)) as (Hlast & _ & _ & Hnext).
  split; [exact Hlast |].
  apply Hnext. by_running.
Defined.

End StoreMoreExamples.

(** * The plain-text snapshot and the global store *)

Lemma length_append (a b : string) :
  String.length (a +:+ b) = (String.length a + String.length b)%nat.
Proof.
  induction a as [|c a IH]; [reflexivity |].
  change (S (String.length (a +:+ b)) = S (String.length a + String.length b)).
  rewrite IH. reflexivity.
Qed.

Lemma get_append_at_length (a b : string) (c : ascii) :
  String.get (String.length a) (a +:+ String c b) = Some c.
Proof.
  induction a as [|x a IH]; [reflexivity |].
  change (String.get (String.length a) (a +:+ String c b) = Some c). exact IH.
Qed.

Lemma substring_0_append (a b : string) :
  String.substring 0 (String.length a) (a +:+ b) = a.
Proof.
  induction a as [|x a IH]; [destruct b; reflexivity |].
  change (String x (String.substring 0 (String.length a) (a +:+ b)) = String x a).
  rewrite IH. reflexivity.
Qed.

Section TextFormat.

Import NexState NexStateGlobal.
Context `{FloatOps}.

(** The quotes [toString] puts around a text come off again. *)
Lemma strip_quotes_quoted (t : string) : strip_quotes (quoted t) = t.
Proof.
  unfold strip_quotes, quoted, dquote.
  change (String "034" EmptyString +:+ t +:+ String "034" EmptyString)
    with (String "034" (t +:+ String "034" EmptyString)).
  cbn [String.get String.length].
  rewrite length_append. cbn [String.length].
  replace (S (String.length t + 1) - 1)%nat with (S (String.length t)) by lia.
  replace (S (String.length t + 1) - 2)%nat with (String.length t) by lia.
  cbn [String.get]. rewrite get_append_at_length. cbn.
  apply substring_0_append.
Qed.

(** A text that does not begin with a quote is left alone. *)
Lemma strip_quotes_unquoted (val : string) :
  String.get 0 val <> Some "034"%char -> strip_quotes val = val.
Proof.
  intros Hfirst. unfold strip_quotes.
  destruct (String.get 0 val) as [f|]; [| reflexivity].
  destruct (String.get (String.length val - 1) val) as [b|]; [| reflexivity].
  destruct (Ascii.eqb f "034") eqn:Hf; [| reflexivity].
  apply Ascii.eqb_eq in Hf. congruence.
Qed.

Lemma pretty_N_char_unquoted (x : N) : pretty_N_char x <> "034"%char.
Proof. unfold pretty_N_char. repeat case_match; discriminate. Qed.

Lemma pretty_N_go_unquoted (x : N) (s : string) :
  String.get 0 s <> Some "034"%char ->
  String.get 0 (pretty_N_go x s) <> Some "034"%char.
Proof.
  revert s. induction (N.lt_wf_0 x) as [x _ IH]; intros s Hs.
  destruct (decide (x = 0%N)) as [-> | Hx].
  - rewrite pretty_N_go_0. exact Hs.
  - rewrite pretty_N_go_step by lia.
    apply IH.
    + apply N.div_lt; lia.
    + cbn. intros Heq. injection Heq as Heq.
      exact (pretty_N_char_unquoted _ Heq).
Qed.

Lemma pretty_Z_unquoted (z : Z) : String.get 0 (pretty z) <> Some "034"%char.
Proof.
  destruct z as [|p|p]; cbn.
  - discriminate.
  - unfold pretty, pretty_positive, pretty, pretty_N.
    case_decide; [discriminate |]. apply pretty_N_go_unquoted. discriminate.
  - discriminate.
Qed.

Lemma strip_quotes_v_toString (v : StateValueVariant) :
  strip_quotes (v_toString v) = v_plain v.
Proof.
  destruct v as [sv|sv|sv|sv]; cbn.
  - destruct (currentValue sv); reflexivity.
  - apply strip_quotes_unquoted, pretty_Z_unquoted.
  - reflexivity.
  - apply strip_quotes_quoted.
Qed.

Lemma text_loop_rest (l : list (string * StateValueVariant))
    (kv : string * StateValueVariant) (text : string) :
  text_loop false l (text +:+ text_member kv)
  = text +:+ String.concat ", " (map text_member (kv :: l)).
Proof.
  revert kv text. induction l as [|kv' l IH]; intros kv text.
  - reflexivity.
  - cbn [text_loop negb].
    replace ((((text +:+ text_member kv) +:+ ", ") +:+ (fst kv' +:+ "="))
               +:+ strip_quotes (v_toString (snd kv')))
      with (((text +:+ text_member kv) +:+ ", ") +:+ text_member kv').
    + rewrite IH. cbn [map]. rewrite concat_cons2.
      rewrite !append_assoc. reflexivity.
    + unfold text_member. rewrite strip_quotes_v_toString.
      rewrite !append_assoc. reflexivity.
Qed.

Lemma text_loop_first (l : list (string * StateValueVariant)) (text : string) :
  text_loop true l text = text +:+ String.concat ", " (map text_member l).
Proof.
  destruct l as [|kv l].
  - cbn. rewrite append_empty_r. reflexivity.
  - cbn [text_loop negb].
    replace ((text +:+ (fst kv +:+ "=")) +:+ strip_quotes (v_toString (snd kv)))
      with (text +:+ text_member kv).
    + apply text_loop_rest.
    + unfold text_member. rewrite strip_quotes_v_toString.
      rewrite !append_assoc. reflexivity.
Qed.

(** X19.  [getStateAsText] is the plain-text format over all entries of the
    store: a boolean prints as [true] or [false], an integer as its decimal
    literal, and a text as its bytes, without the quotes of the JSON form,
    whatever the text contains. *)
Theorem getStateAsText_plain (s : NexState) :
  getStateAsText s = plain_format (deviceInfo (config s)) (entries s) /\
  (forall t, strip_quotes (v_toString (SVString (StateValue_init t))) = t) /\
  (forall z, strip_quotes (v_toString (SVInt (StateValue_init z))) = pretty z).
Proof.
  split.
  { unfold getStateAsText, plain_format. cbv zeta.
    rewrite text_loop_first. rewrite !append_assoc. reflexivity. }
  split.
  - intros t. apply (strip_quotes_v_toString (SVString (StateValue_init t))).
  - intros z. apply (strip_quotes_v_toString (SVInt (StateValue_init z))).
Qed.

(** X21.  The global store is set up once: [initialize] on an existing
    store returns false and leaves it, configuration included, as it is.
    [State()] creates a store with the default configuration when there is
    none, so an [initialize] that comes after a first [State()] is refused.
    The free [update] does nothing without a store, and after [shutdown] the
    next [State()] starts from an empty store. *)
Theorem global_store_is_set_up_once (cfg : NexStateConfig) (now now' : Z) (g : Global) :
  (forall s, g = Some s -> initialize cfg now g = (false, g)) /\
  initialize cfg now None = (true, Some (NexState_new cfg now)) /\
  snd (State now g) = Some (fst (State now g)) /\
  (forall s, g = Some s -> State now g = (s, g)) /\
  (g = None -> fst (State now g) = NexState_new NexStateConfig_default now) /\
  initialize cfg now' (snd (State now g)) = (false, snd (State now g)) /\
  NexStateGlobal.update now None = (None, []) /\
  fst (State now (shutdown g)) = NexState_new NexStateConfig_default now /\
  size (fst (State now (shutdown g))) = 0%nat.
Proof.
  split; [intros s ->; reflexivity |].
  split; [reflexivity |].
  split; [destruct g; reflexivity |].
  split; [intros s ->; reflexivity |].
  split; [intros ->; reflexivity |].
  split; [destruct g; reflexivity |].
  split; [reflexivity |].
  split; [reflexivity |].
  cbn. unfold size. cbn. apply map_size_empty.
Qed.

End TextFormat.

Section TextFormatExamples.

Import NexState NexStateGlobal.
#[local] Existing Instance integral_floats.

Example dirty_store_text :
  getStateAsText dirty_store
  = "Device: BeamLink-LED (ID: BLX-LED-001, Type: led, FW: 1.0.0) | State: count=42, mode=blink, ledOn=true".
Proof. vm_compute. reflexivity. Qed.

End TextFormatExamples.

(** * Properties of the parsing and formatting utilities *)

Section UtilsFacts.

Import BeamUtils.

(** ** Substrings *)

Lemma substring_skip (p s : string) (n m : nat) :
  String.substring (String.length p + n) m (p +:+ s) = String.substring n m s.
Proof.
  induction p as [|x p IH]; [reflexivity |].
  change (String.substring (String.length p + n) m (p +:+ s) = String.substring n m s).
  exact IH.
Qed.

Lemma substring_0_all (s : string) : String.substring 0 (String.length s) s = s.
Proof.
  induction s as [|x s IH]; [reflexivity |]. cbn. rewrite IH. reflexivity.
Qed.

Lemma drop_append (p s : string) : drop (String.length p) (p +:+ s) = s.
Proof.
  induction p as [|x p IH]; [destruct s; reflexivity |].
  change (drop (String.length p) (p +:+ s) = s). exact IH.
Qed.

Lemma drop_append_1 (p s : string) (c : ascii) :
  drop (String.length p + 1) (p +:+ String c s) = s.
Proof.
  induction p as [|x p IH]; [destruct s; reflexivity |].
  change (drop (String.length p + 1) (p +:+ String c s) = s). exact IH.
Qed.

Lemma substring_drop (n : nat) (s : string) :
  (n <= String.length s)%nat ->
  s = String.substring 0 n s +:+ drop n s.
Proof.
  revert n. induction s as [|x s IH]; intros [|n] Hn; cbn in *; try reflexivity.
  change (String x s = String x (String.substring 0 n s +:+ drop n s)).
  rewrite <- IH by lia. reflexivity.
Qed.

Lemma substring_to_end (n : nat) (s : string) :
  (n <= String.length s)%nat ->
  String.substring n (String.length s - n) s = drop n s.
Proof.
  revert n. induction s as [|x s IH]; intros [|n] Hn; cbn in *;
    try reflexivity; try lia.
  - rewrite substring_0_all. reflexivity.
  - apply IH. lia.
Qed.

Lemma empty_iff (s : string) : empty s = true <-> s = EmptyString.
Proof. destruct s; cbn; split; congruence. Qed.

Lemma length_0_iff (s : string) : String.length s = 0%nat <-> s = EmptyString.
Proof. destruct s; cbn; split; congruence. Qed.

(** ** [find] *)

Lemma find_append (ch : ascii) (pre post : string) :
  occurs ch pre = false ->
  find ch (pre +:+ String ch post) = Some (String.length pre).
Proof.
  induction pre as [|x pre IH]; intros Hocc.
  - change (find ch (String ch post) = Some 0%nat).
    cbn. rewrite Ascii.eqb_refl. reflexivity.
  - cbn in Hocc. apply orb_false_iff in Hocc as [Hx Hpre].
    change (find ch (String x (pre +:+ String ch post)) = Some (S (String.length pre))).
    cbn [find]. rewrite Hx, (IH Hpre). reflexivity.
Qed.

Lemma find_None (ch : ascii) (s : string) :
  find ch s = None <-> occurs ch s = false.
Proof.
  induction s as [|x s IH]; cbn; [tauto |].
  destruct (Ascii.eqb x ch); cbn; [split; discriminate |].
  destruct (find ch s); [split; [discriminate | ] | tauto].
  intros Hocc. apply IH in Hocc. discriminate.
Qed.

Lemma find_Some (ch : ascii) (s : string) (n : nat) :
  find ch s = Some n ->
  s = String.substring 0 n s +:+ String ch (drop (n + 1) s) /\
  occurs ch (String.substring 0 n s) = false /\
  String.length (String.substring 0 n s) = n.
Proof.
  revert n. induction s as [|x s IH]; intros n; cbn; [discriminate |].
  destruct (Ascii.eqb x ch) eqn:Hx.
  - intros [= <-]. apply Ascii.eqb_eq in Hx as ->. cbn.
    destruct s; repeat split.
  - destruct (find ch s) as [i|]; [| discriminate].
    intros [= <-]. destruct (IH i eq_refl) as (Hs & Hocc & Hlen).
    cbn. rewrite Hx, Hocc, Hlen. repeat split.
    change (String x s
            = String x (String.substring 0 i s +:+ String ch (drop (i + 1) s))).
    rewrite <- Hs. reflexivity.
Qed.

(** X22.  [parseCommand] succeeds exactly on the messages of the form
    [command:action] with both parts non-empty, the command being the text
    before the first colon (the action may contain further colons); it then
    returns the two parts, and otherwise it returns false and leaves the two
    output parameters as they were. *)
Theorem parseCommand_spec (message command0 action0 : string) :
  (forall command action,
     parseCommand message command0 action0 = (true, command, action) <->
     message = command +:+ ":" +:+ action /\
     command <> EmptyString /\ action <> EmptyString /\
     occurs ":" command = false) /\
  (fst (fst (parseCommand message command0 action0)) = false ->
   parseCommand message command0 action0 = (false, command0, action0)).
Proof.
  split.
  - intros command action. unfold parseCommand. split.
    + destruct (find ":" message) as [pos|] eqn:Hfind; [| discriminate].
      destruct (Nat.eqb pos 0 || Nat.eqb pos (String.length message - 1)) eqn:Hedge;
        [discriminate |].
      intros [= <- <-].
      apply orb_false_iff in Hedge as [H0 Hlast].
      apply Nat.eqb_neq in H0, Hlast.
      destruct (find_Some _ _ _ Hfind) as (Hmsg & Hocc & Hlen).
      split; [exact Hmsg |].
      split; [intros Hc; rewrite Hc in Hlen; cbn in Hlen; lia |].
      split; [| exact Hocc].
      intros Ha. apply Hlast.
      rewrite Hmsg at 1. rewrite Ha, length_append, Hlen. cbn. lia.
    + intros (-> & Hc & Ha & Hocc).
      change (command +:+ ":" +:+ action) with (command +:+ String ":" action).
      rewrite (find_append _ _ _ Hocc).
      assert (String.length command <> 0%nat) as Hlc
        by (rewrite length_0_iff; exact Hc).
      assert (String.length action <> 0%nat) as Hla
        by (rewrite length_0_iff; exact Ha).
      rewrite length_append. cbn [String.length].
      assert (Nat.eqb (String.length command) 0
              || Nat.eqb (String.length command)
                   (String.length command + S (String.length action) - 1) = false)
        as ->.
      { apply orb_false_iff. split; apply Nat.eqb_neq; lia. }
      rewrite substring_0_append, drop_append_1. reflexivity.
  - unfold parseCommand.
    destruct (find ":" message) as [pos|]; [| reflexivity].
    destruct (Nat.eqb pos 0 || Nat.eqb pos (String.length message - 1));
      [reflexivity | discriminate].
Qed.

(** X23.  On a message [command:action:value] whose command and action hold
    no colon, [parseCommandValue] stores the three parts (the value may be
    empty or hold colons) and returns whether command and action are both
    non-empty: on an empty command or action it returns false after it has
    overwritten the outputs.  With fewer than two colons it returns false and
    leaves the outputs alone. *)
Theorem parseCommandValue_spec (command action value : string)
    (command0 action0 value0 : string) :
  occurs ":" command = false -> occurs ":" action = false ->
  parseCommandValue (command +:+ ":" +:+ action +:+ ":" +:+ value)
    command0 action0 value0
  = (negb (empty command) && negb (empty action), command, action, value) /\
  parseCommandValue (command +:+ ":" +:+ action) command0 action0 value0
  = (false, command0, action0, value0) /\
  parseCommandValue command command0 action0 value0
  = (false, command0, action0, value0).
Proof.
  intros Hc Ha. unfold parseCommandValue.
  split; [| split].
  - change (command +:+ ":" +:+ action +:+ ":" +:+ value)
      with (command +:+ String ":" (action +:+ String ":" value)).
    rewrite (find_append _ _ _ Hc). unfold find_from.
    rewrite drop_append_1, (find_append _ _ _ Ha).
    cbv zeta.
    rewrite substring_0_append.
    replace (String.length command + 1 + String.length action
             - String.length command - 1)%nat
      with (String.length action) by lia.
    change (command +:+ String ":" (action +:+ String ":" value))
      with (command +:+ (String ":" EmptyString +:+ (action +:+ String ":" value))).
    rewrite <- append_assoc.
    replace (String.length command + 1)%nat
      with (String.length (command +:+ String ":" EmptyString) + 0)%nat
      by (rewrite length_append; cbn; lia).
    rewrite substring_skip, substring_0_append.
    rewrite <- append_assoc.
    replace (String.length (command +:+ String ":" EmptyString) + 0
             + String.length action + 1)%nat
      with (String.length ((command +:+ String ":" EmptyString) +:+ action) + 1)%nat
      by (rewrite !length_append; cbn; lia).
    rewrite drop_append_1. reflexivity.
  - change (command +:+ ":" +:+ action) with (command +:+ String ":" action).
    rewrite (find_append _ _ _ Hc). unfold find_from.
    rewrite drop_append_1.
    apply find_None in Ha. rewrite Ha. reflexivity.
  - apply find_None in Hc. rewrite Hc. reflexivity.
Qed.

Lemma parseCommandValue_spec_witness :
  occurs ":" "led" = false /\ occurs ":" "on" = false /\
  parseCommandValue "led:on:1" "c" "a" "v" = (true, "led", "on", "1") /\
  parseCommandValue "led:on" "c" "a" "v" = (false, "c", "a", "v").
Proof.
  split; [reflexivity |]. split; [reflexivity |].
  destruct (parseCommandValue_spec "led" "on" "1" "c" "a" "v" eq_refl eq_refl)
    as (Hfull & Hshort & _).
  split; [exact Hfull | exact Hshort].
Defined.

(** X27.  [startsWith(str, prefix)] is true exactly when [str] is [prefix]
    followed by something, and [endsWith(str, suffix)] exactly when [str] is
    something followed by [suffix]; in particular both are true for the empty
    affix and for the string itself. *)
Theorem startsWith_endsWith_spec (str affix : string) :
  (startsWith str affix = true <-> exists rest, str = affix +:+ rest) /\
  (endsWith str affix = true <-> exists front, str = front +:+ affix) /\
  startsWith str EmptyString = true /\ endsWith str EmptyString = true /\
  startsWith str str = true /\ endsWith str str = true.
Proof.
  assert (forall s a, startsWith s a = true <-> exists rest, s = a +:+ rest) as Hstart.
  { intros s a. unfold startsWith, compare_eq. split.
    - destruct (Nat.ltb (String.length s) (String.length a)); [discriminate |].
      intros Heq. apply String.eqb_eq in Heq.
      destruct (substring_0_prefix (String.length a) s) as [rest Hrest].
      exists rest. rewrite Heq in Hrest. exact Hrest.
    - intros [rest ->].
      assert (Nat.ltb (String.length (a +:+ rest)) (String.length a) = false) as ->.
      { apply Nat.ltb_ge. rewrite length_append. lia. }
      rewrite substring_0_append. apply String.eqb_refl. }
  assert (forall s a, endsWith s a = true <-> exists front, s = front +:+ a) as Hend.
  { intros s a. unfold endsWith, compare_eq. split.
    - destruct (Nat.ltb (String.length s) (String.length a)) eqn:Hlt; [discriminate |].
      apply Nat.ltb_ge in Hlt.
      intros Heq. apply String.eqb_eq in Heq.
      remember (String.length s - String.length a)%nat as n eqn:Hn.
      exists (String.substring 0 n s).
      assert (drop n s = a) as Hd.
      { rewrite <- substring_to_end by lia.
        replace (String.length s - n)%nat with (String.length a) by lia.
        exact Heq. }
      rewrite <- Hd. apply substring_drop. lia.
    - intros [front ->].
      assert (Nat.ltb (String.length (front +:+ a)) (String.length a) = false) as ->.
      { apply Nat.ltb_ge. rewrite length_append. lia. }
      rewrite length_append.
      replace (String.length front + String.length a - String.length a)%nat
        with (String.length front + 0)%nat by lia.
      rewrite substring_skip, substring_0_all. apply String.eqb_refl. }
  split; [apply Hstart |]. split; [apply Hend |].
  split; [apply Hstart; exists str; reflexivity |].
  split; [apply Hend; exists str; rewrite append_empty_r; reflexivity |].
  split; [apply Hstart; exists EmptyString; rewrite append_empty_r; reflexivity |].
  apply Hend. exists EmptyString. reflexivity.
Qed.

(** ** [split] *)




Example split_examples :
  split "a,,b" "," = ["a"; EmptyString; "b"] /\
  split "a," "," = ["a"] /\
  split "," "," = [EmptyString] /\
  split ",a" "," = [EmptyString; "a"] /\
  split "cmd:action:value" ":" = ["cmd"; "action"; "value"].
Proof. repeat split. Qed.

(** ** [trim] *)

Lemma find_first_not_of_None (s : string) :
  find_first_not_of s = None <-> all_space s = true.
Proof.
  induction s as [|a s IH]; cbn; [tauto |].
  destruct (is_space a); cbn; [| split; discriminate].
  destruct (find_first_not_of s); [| tauto].
  split; [discriminate |]. intros Hall. apply IH in Hall. discriminate.
Qed.

Lemma find_last_not_of_None (s : string) :
  find_last_not_of s = None <-> all_space s = true.
Proof.
  induction s as [|a s IH]; cbn; [tauto |].
  destruct (find_last_not_of s).
  - split; [discriminate |]. intros Hall.
    apply andb_true_iff in Hall as [_ Hall]. apply IH in Hall. discriminate.
  - destruct (is_space a); cbn; [tauto | split; discriminate].
Qed.

Lemma strip_right_spec (s : string) :
  match find_last_not_of s with
  | Some last =>
      String.substring 0 (last + 1) s = strip_right s /\ strip_right s <> EmptyString
  | None => strip_right s = EmptyString
  end.
Proof.
  induction s as [|a s IH]; cbn; [reflexivity |].
  destruct (find_last_not_of s) as [i|].
  - destruct IH as [Hsub Hne]. cbn. rewrite Hsub.
    destruct (strip_right s); [congruence |]. split; [reflexivity | discriminate].
  - rewrite IH. destruct (is_space a); [reflexivity |].
    cbn. destruct s; split; (reflexivity || discriminate).
Qed.

Lemma trim_space_cons (a : ascii) (s : string) :
  is_space a = true -> trim (String a s) = trim s.
Proof.
  intros Ha. unfold trim. cbn [find_first_not_of find_last_not_of]. rewrite Ha.
  destruct (find_first_not_of s) as [f|] eqn:Hf; [| reflexivity].
  destruct (find_last_not_of s) as [l|] eqn:Hl.
  - cbn. reflexivity.
  - apply find_last_not_of_None, find_first_not_of_None in Hl. congruence.
Qed.

Lemma trim_nonspace_cons (a : ascii) (s : string) :
  is_space a = false -> trim (String a s) = strip_right (String a s).
Proof.
  intros Ha. unfold trim. cbn [find_first_not_of]. rewrite Ha.
  pose proof (strip_right_spec (String a s)) as Hspec.
  destruct (find_last_not_of (String a s)) as [l|] eqn:Hl.
  - destruct Hspec as [Hsub _]. rewrite Nat.sub_0_r. exact Hsub.
  - apply find_last_not_of_None in Hl. cbn in Hl. rewrite Ha in Hl. discriminate.
Qed.

Lemma trim_two_passes (s : string) : trim s = strip_right (strip_left s).
Proof.
  induction s as [|a s IH]; [reflexivity |].
  cbn [strip_left]. destruct (is_space a) eqn:Ha.
  - rewrite trim_space_cons by exact Ha. exact IH.
  - apply trim_nonspace_cons. exact Ha.
Qed.

Lemma strip_right_idem (s : string) : strip_right (strip_right s) = strip_right s.
Proof.
  induction s as [|a s IH]; [reflexivity |]. cbn.
  destruct (strip_right s) as [|b t] eqn:Ht.
  - destruct (is_space a) eqn:Ha; [reflexivity |]. cbn. rewrite Ha. reflexivity.
  - cbn [strip_right] in *. rewrite IH. reflexivity.
Qed.

Lemma strip_left_strip_right (s : string) :
  strip_left (strip_right (strip_left s)) = strip_right (strip_left s).
Proof.
  induction s as [|a s IH]; [reflexivity |].
  cbn [strip_left]. destruct (is_space a) eqn:Ha; [exact IH |].
  cbn [strip_right]. destruct (strip_right s); rewrite ?Ha; cbn; rewrite Ha; reflexivity.
Qed.

Lemma strip_left_split (s : string) :
  exists l, s = l +:+ strip_left s /\ all_space l = true.
Proof.
  induction s as [|a s IH]; [exists EmptyString; auto |].
  cbn [strip_left]. destruct (is_space a) eqn:Ha.
  - destruct IH as (l & Hs & Hl). exists (String a l). split.
    + change (String a s = String a (l +:+ strip_left s)). rewrite <- Hs. reflexivity.
    + cbn. rewrite Ha, Hl. reflexivity.
  - exists EmptyString. auto.
Qed.

Lemma strip_right_split (s : string) :
  exists r, s = strip_right s +:+ r /\ all_space r = true.
Proof.
  induction s as [|a s IH]; [exists EmptyString; auto |].
  destruct IH as (r & Hs & Hr). cbn [strip_right].
  destruct (strip_right s) as [|b t] eqn:Ht.
  - destruct (is_space a) eqn:Ha.
    + exists (String a s). split; [reflexivity |].
      cbn. rewrite Ha. cbn in Hs. rewrite Hs. exact Hr.
    + exists r. split; [| exact Hr].
      change (String a s = String a (EmptyString +:+ r)). rewrite <- Hs. reflexivity.
  - exists r. split; [| exact Hr].
    change (String a s = String a (String b t +:+ r)). rewrite <- Hs. reflexivity.
Qed.

Lemma strip_right_empty (s : string) :
  strip_right s = EmptyString <-> all_space s = true.
Proof.
  pose proof (strip_right_spec s) as Hspec.
  destruct (find_last_not_of s) as [l|] eqn:Hl.
  - destruct Hspec as [_ Hne]. split; [congruence |].
    intros Hall. apply find_last_not_of_None in Hall. congruence.
  - split; [| intros _; exact Hspec].
    intros _. apply find_last_not_of_None. exact Hl.
Qed.

(** X25.  [trim] removes the leading and the trailing white space (blank,
    tab, line feed, carriage return) and nothing else: the string is white
    space, then the result, then white space; the result is empty exactly
    for a string of white space only; and trimming twice is trimming once. *)
Theorem trim_spec (str : string) :
  trim str = strip_right (strip_left str) /\
  (exists l r, str = l +:+ trim str +:+ r /\
               all_space l = true /\ all_space r = true) /\
  (trim str = EmptyString <-> all_space str = true) /\
  trim (trim str) = trim str.
Proof.
  split; [apply trim_two_passes |].
  split.
  { destruct (strip_left_split str) as (l & Hl & Hlws).
    destruct (strip_right_split (strip_left str)) as (r & Hr & Hrws).
    exists l, r. rewrite trim_two_passes. rewrite <- Hr. auto. }
  split.
  { unfold trim. split.
    - destruct (find_first_not_of str) as [f|] eqn:Hf.
      + pose proof (trim_two_passes str) as Htwo. unfold trim in Htwo.
        rewrite Hf in Htwo. intros Hnil. rewrite Hnil in Htwo.
        symmetry in Htwo. apply strip_right_empty in Htwo.
        destruct (strip_left_split str) as (l & Hl & Hlws).
        assert (forall a b, all_space a = true -> all_space b = true ->
                            all_space (a +:+ b) = true) as Happ.
        { intros a b Ha Hb. induction a as [|x a IHa]; [exact Hb |].
          cbn in Ha. apply andb_true_iff in Ha as [Hx Ha].
          change (all_space (String x (a +:+ b)) = true). cbn.
          rewrite Hx, (IHa Ha). reflexivity. }
        rewrite Hl. apply Happ; assumption.
      + intros _. apply find_first_not_of_None. exact Hf.
    - intros Hall. apply find_first_not_of_None in Hall. rewrite Hall. reflexivity. }
  rewrite !trim_two_passes.
  rewrite strip_left_strip_right. apply strip_right_idem.
Qed.

Example trim_examples :
  trim "  hello  " = "hello" /\ trim "   " = EmptyString /\
  trim "a b" = "a b" /\ trim EmptyString = EmptyString.
Proof. repeat split. Qed.

(** ** Case conversion *)

Lemma tolower_facts (c : ascii) :
  tolower (tolower c) = tolower c /\ toupper (toupper c) = toupper c /\
  tolower (toupper c) = tolower c /\ toupper (tolower c) = toupper c.
Proof.
  destruct c as [[] [] [] [] [] [] [] []]; vm_compute; repeat split.
Qed.

(** X26.  [toLower] and [toUpper] keep the length of the string, change
    nothing when applied a second time, and undo each other's effect on the
    case: lowering an uppercased string is lowering the string, and the other
    way round. *)
Theorem case_conversion_spec (str : string) :
  String.length (toLower str) = String.length str /\
  String.length (toUpper str) = String.length str /\
  toLower (toLower str) = toLower str /\
  toUpper (toUpper str) = toUpper str /\
  toLower (toUpper str) = toLower str /\
  toUpper (toLower str) = toUpper str.
Proof.
  unfold toLower, toUpper.
  induction str as [|c str IH]; [repeat split |].
  destruct IH as (H1 & H2 & H3 & H4 & H5 & H6).
  destruct (tolower_facts c) as (C1 & C2 & C3 & C4).
  cbn. rewrite H1, H2, H3, H4, H5, H6, C1, C2, C3, C4. repeat split.
Qed.

Example case_examples :
  toLower "HELLO World 42" = "hello world 42" /\
  toUpper "hello WORLD 42" = "HELLO WORLD 42".
Proof. repeat split. Qed.

(** ** [formatUptime] *)

(** X28.  [formatUptime] shows the whole seconds of the uptime split into
    days, hours (below 24), minutes and seconds (below 60), which add up to
    them again; days are shown from one day on, hours from one hour on,
    minutes from one minute on, and seconds always. *)
Theorem formatUptime_spec (uptimeMs : Z) :
  0 <= uptimeMs ->
  let total := uptimeMs / 1000 in
  let d := total / 86400 in
  let h := (total / 3600) mod 24 in
  let m := (total / 60) mod 60 in
  let sec := total mod 60 in
  d * 86400 + h * 3600 + m * 60 + sec = total /\
  0 <= h < 24 /\ 0 <= m < 60 /\ 0 <= sec < 60 /\
  formatUptime uptimeMs
  = (if 86400 <=? total then pretty d +:+ "d " else EmptyString)
    +:+ (if 3600 <=? total then pretty h +:+ "h " else EmptyString)
    +:+ (if 60 <=? total then pretty m +:+ "m " else EmptyString)
    +:+ pretty sec +:+ "s".
Proof.
  intros Hnn total d h m sec.
  assert (0 <= total) as Htot by (apply Z.div_pos; lia).
  assert (total / 60 / 60 = total / 3600) as H3600
    by (rewrite Z.div_div by lia; reflexivity).
  assert (total / 3600 / 24 = d) as Hd.
  { subst d. rewrite !Z.div_div by lia. reflexivity. }
  pose proof (Z.mod_pos_bound (total / 3600) 24 ltac:(lia)) as Hh.
  pose proof (Z.mod_pos_bound (total / 60) 60 ltac:(lia)) as Hm.
  pose proof (Z.mod_pos_bound total 60 ltac:(lia)) as Hs.
  assert (0 <= d) as Hd0 by (apply Z.div_pos; lia).
  split.
  { subst d h m sec.
    pose proof (Z.div_mod total 60 ltac:(lia)).
    pose proof (Z.div_mod (total / 60) 60 ltac:(lia)).
    pose proof (Z.div_mod (total / 3600) 24 ltac:(lia)).
    rewrite H3600 in *.
    assert (total / 3600 / 24 = total / 86400)
      by (rewrite Z.div_div by lia; reflexivity).
    lia. }
  split; [exact Hh |]. split; [exact Hm |]. split; [exact Hs |].
  unfold formatUptime. fold total. cbv zeta. rewrite H3600, Hd.
  fold h m sec.
  assert ((d >? 0) = (86400 <=? total)) as Hday.
  { rewrite Z.gtb_ltb. destruct (86400 <=? total) eqn:Hc.
    - apply Z.leb_le in Hc. apply Z.ltb_lt. subst d.
      apply Z.div_str_pos. lia.
    - apply Z.leb_gt in Hc. apply Z.ltb_ge. subst d.
      rewrite Z.div_small; lia. }
  assert ((h >? 0) || (d >? 0) = (3600 <=? total)) as Hhour.
  { rewrite Hday. destruct (3600 <=? total) eqn:Hc.
    - apply Z.leb_le in Hc. apply orb_true_iff.
      destruct (Z_lt_le_dec total 86400) as [Hlt | Hge].
      + left. rewrite Z.gtb_ltb. apply Z.ltb_lt. subst h.
        assert (0 < total / 3600) by (apply Z.div_str_pos; lia).
        assert (total / 3600 < 24) by (apply Z.div_lt_upper_bound; lia).
        rewrite Z.mod_small; lia.
      + right. apply Z.leb_le. exact Hge.
    - apply Z.leb_gt in Hc. apply orb_false_iff. split.
      + rewrite Z.gtb_ltb. apply Z.ltb_ge. subst h.
        rewrite (Z.div_small total 3600) by lia. rewrite Zmod_0_l. lia.
      + apply Z.leb_gt. lia. }
  assert ((m >? 0) || (h >? 0) || (d >? 0) = (60 <=? total)) as Hmin.
  { rewrite <- orb_assoc, Hhour. destruct (60 <=? total) eqn:Hc.
    - apply Z.leb_le in Hc. apply orb_true_iff.
      destruct (Z_lt_le_dec total 3600) as [Hlt | Hge].
      + left. rewrite Z.gtb_ltb. apply Z.ltb_lt. subst m.
        assert (0 < total / 60) by (apply Z.div_str_pos; lia).
        assert (total / 60 < 60) by (apply Z.div_lt_upper_bound; lia).
        rewrite Z.mod_small; lia.
      + right. apply Z.leb_le. exact Hge.
    - apply Z.leb_gt in Hc. apply orb_false_iff. split.
      + rewrite Z.gtb_ltb. apply Z.ltb_ge. subst m.
        rewrite (Z.div_small total 60) by lia. rewrite Zmod_0_l. lia.
      + apply Z.leb_gt. lia. }
  rewrite Hmin, Hhour, Hday.
  destruct (86400 <=? total), (3600 <=? total), (60 <=? total);
    rewrite ?append_assoc; reflexivity.
Qed.

Lemma formatUptime_spec_witness :
  0 <= 90000 /\
  formatUptime 90000 = "1m 30s" /\ formatUptime 0 = "0s" /\
  formatUptime 93784000 = "1d 2h 3m 4s" /\ formatUptime 3600000 = "1h 0m 0s".
Proof.
  split; [lia |].
  destruct (formatUptime_spec 90000 ltac:(lia)) as (_ & _ & _ & _ & Htext).
  split; [rewrite Htext; reflexivity |].
  repeat split.
Defined.

End UtilsFacts.

(** * Properties of the LED command handlers *)

Section LedHandlerFacts.

Import LEDMessageHandler.

Ltac split_commands message :=
  repeat match goal with
         | |- context [String.eqb message ?c] =>
             destruct (String.eqb_spec message c)
         end.

(** X29.  [LEDCommandHandler::handleMessage] answers every message with
    exactly one non-empty reply and never changes the pin, the polarity or
    the device texts; every pin write it makes goes to the handler's pin with
    the level that shows the new LED state; [led:status] changes nothing and
    reports the state; [led:toggle] inverts the state, leaves blinking mode
    and reports the new state, so that two toggles restore the state; and a
    message that is no command changes nothing and is answered
    [Unknown Command]. *)
Theorem handleMessage_spec (message : string) (h : LEDCommandHandler) :
  let h' := fst (fst (handleMessage message h)) in
  let writes := snd (fst (handleMessage message h)) in
  let replies := snd (handleMessage message h) in
  (exists r, replies = [r] /\ r <> EmptyString) /\
  with_led (ledState h) (blinkingMode h) h' = h /\
  Forall (fun w => w = DigitalWrite (ledPin h)
                         (level_for (ledActiveHigh h) (ledState h'))) writes /\
  (message = "led:status" ->
   h' = h /\ writes = [] /\ replies = ["LED " +:+ on_off (ledState h)]) /\
  (message = "led:toggle" ->
   ledState h' = negb (ledState h) /\ blinkingMode h' = false /\
   length writes = 1%nat /\ replies = ["LED " +:+ on_off (ledState h')] /\
   ledState (fst (fst (handleMessage "led:toggle" h'))) = ledState h) /\
  (message ∉ commands ->
   h' = h /\ writes = [] /\ replies = ["Unknown Command"]).
Proof.
  assert (forall s t, String "L" s <> EmptyString /\ String "S" t <> EmptyString)
    as _ by (split; discriminate).
  unfold handleMessage, commands. split_commands message; subst; cbn.
  all: (split; [eexists; split; [reflexivity | destruct h as [? ? ? ? ? ? [] [] ?];
                                             discriminate] |]).
  all: (split; [destruct h; reflexivity |]).
  all: (split; [destruct h as [? [] ? ? ? ? [] ? ?]; cbn; repeat constructor |]).
  all: (split; [intros Hm; first [discriminate Hm | contradiction | repeat split] |]).
  all: (split; [intros Hm;
                first [discriminate Hm | contradiction
                      | repeat split; destruct (ledState h); reflexivity] |]).
  all: intros Hnot;
    first [solve [exfalso; apply Hnot;
                  repeat first [apply list_elem_of_here | apply list_elem_of_further]]
          | repeat split].
Qed.

Example handleMessage_examples :
  let h := LEDCommandHandler_new 2 false "BeamLink-LED" "BLX-LED-001" "led" "1.0.0" in
  handleMessage "led:on" h
  = (with_led true false h, [DigitalWrite 2 false], ["LED ON"]) /\
  snd (handleMessage "state:info" (with_led true true h))
  = ["State: ON, Blinking: YES"] /\
  snd (handleMessage "info" h)
  = ["Device: BeamLink-LED, ID: BLX-LED-001, Type: led, FW: 1.0.0, State: OFF"] /\
  snd (handleMessage "LED:ON" h) = ["Unknown Command"].
Proof. repeat split. Qed.

End LedHandlerFacts.

(** * The template's handler, from inbound frame to store and reply *)

Section TemplateFacts.

Import NexState NexStateGlobal TemplateMain.
Context `{FloatOps}.

Lemma set_both_some (key1 : string) (v1 : bool) (key2 : string) (v2 : bool)
    (now1 now2 : Z) (s : NexState) :
  set_both key1 v1 key2 v2 now1 now2 (Some s)
  = (Some (fst (set KBool key2 v2 now2 (fst (set KBool key1 v1 now1 s)))),
     (snd (set KBool key1 v1 now1 s)
        ++ snd (set KBool key2 v2 now2 (fst (set KBool key1 v1 now1 s))))%list).
Proof.
  unfold set_both, State_set, State. cbn [initialize snd].
  destruct (set KBool key1 v1 now1 s) as [s1 out1]. cbn [fst snd].
  destruct (set KBool key2 v2 now2 s1) as [s2 out2]. reflexivity.
Qed.

Lemma get_bool_after_set (key : string) (v dflt : bool) (now : Z) (s : NexState) :
  get KBool key dflt (fst (set KBool key v now s)) = v.
Proof.
  destruct (upsert_entry_inject KBool key v s) as (sv & Hup & Hcur).
  assert (exists sv', stateValues (fst (set KBool key v now s)) !! key
                      = Some (inject KBool sv') /\
                      currentValue sv' = currentValue sv) as (sv' & Hl & Hsame).
  { destruct (set_lookup KBool key v now s) as [-> | ->]; rewrite Hup.
    - eauto.
    - rewrite v_markAsRead_inject. eexists. split; reflexivity. }
  rewrite (get_lookup KBool key sv' dflt _ Hl), Hsame.
  destruct Hcur as [Heq | Hneq]; [exact Heq |].
  symmetry. apply (neq_false_eq KBool); [discriminate | exact Hneq].
Qed.

Lemma get_after_other_set (k k' : Kind) (key key' : string) (v : ctype k)
    (dflt : ctype k') (now : Z) (s : NexState) :
  key' <> key ->
  get k' key' dflt (fst (set k key v now s)) = get k' key' dflt s.
Proof.
  intros Hne.
  destruct (set_values k key v now s) as [Hm | Hm]; cbv zeta in Hm.
  - unfold get. rewrite Hm, lookup_insert_ne by congruence. reflexivity.
  - unfold get. rewrite Hm, lookup_fmap, lookup_insert_ne by congruence.
    destruct (stateValues s !! key') as [v0|]; cbn; [| reflexivity].
    rewrite get_if_markAsRead. destruct (get_if k' v0); reflexivity.
Qed.

(** X30.  End to end on the template: when the engine serves a peer and
    its handler is the template's, an inbound [led:toggle] inverts [ledOn] in
    the store, clears [ledBlinking], leaves every other key's value alone,
    and sends the peer exactly one frame, [LED ON] or [LED OFF] according to
    the new state, without counting an error.  Whatever the message, the
    handler issues exactly one reply, and a message that is none of its
    commands changes nothing in the store. *)
Theorem template_toggle_end_to_end (d : DeviceInfo) (now1 now2 : Z) (s : NexState)
    (b : BeamLink.BeamLink) (e : BeamLink.Env) :
  BeamLink.initialized b = true -> BeamLink.pChar b = true ->
  BeamLink.isConnected b = true ->
  23 <= BeamLink.mtu e <= UINT16_MAX ->
  BeamLink.messageHandler b = Some (replies_of d now1 now2 (Some s)) ->
  let on := negb (get KBool "ledOn" false s) in
  let g' := fst (fst (handler d "led:toggle" now1 now2 (Some s))) in
  (exists s', g' = Some s' /\
     (forall dflt, get KBool "ledOn" dflt s' = on) /\
     (forall dflt, get KBool "ledBlinking" dflt s' = false) /\
     (forall k key dflt, key <> "ledOn" -> key <> "ledBlinking" ->
                         get k key dflt s' = get k key dflt s)) /\
  BeamLink.notified (snd (BeamLink.onWrite "led:toggle" b e))
  = (BeamLink.notified e ++ ["LED " +:+ on_off on])%list /\
  BeamLink.getErrors (fst (BeamLink.onWrite "led:toggle" b e))
  = BeamLink.getErrors b /\
  (forall message,
     exists r, snd (handler d message now1 now2 (Some s)) = [r] /\ r <> EmptyString) /\
  (forall message,
     message ∉ ["led:on"; "led:off"; "led:status"; "led:toggle"; "led:blink";
                "state:info"; "info"] ->
     handler d message now1 now2 (Some s) = (Some s, [], ["Unknown Command"])).
Proof.
  intros Hi Hc Hd Hmtu Hh on g'.
  assert (handler d "led:toggle" now1 now2 (Some s)
          = (set_both "ledOn" on "ledBlinking" false now1 now2 (Some s),
             ["LED " +:+ on_off on])) as Htoggle.
  { unfold handler.
    cbv beta iota zeta delta [String.eqb Ascii.eqb Bool.eqb State_get State
                                initialize snd fst].
    reflexivity. }
  split.
  { subst g'. rewrite Htoggle, set_both_some. cbn [fst].
    eexists. split; [reflexivity |].
    split; [| split].
    - intros dflt. rewrite get_after_other_set by discriminate.
      apply get_bool_after_set.
    - intros dflt. apply get_bool_after_set.
    - intros k key dflt H1 H2. rewrite !get_after_other_set by assumption.
      reflexivity. }
  assert (BeamLink.onWrite "led:toggle" b e
          = BeamLink.send_replies ["LED " +:+ on_off on]
              (BeamLink.set_messagesReceived
                 (incr32 (BeamLink.messagesReceived b)) b)
              (BeamLink.env_log_handler "led:toggle" e)) as Hwrite.
  { unfold BeamLink.onWrite. cbn [BeamLink.messageHandler BeamLink.set_messagesReceived].
    rewrite Hh. unfold replies_of. rewrite Htoggle. reflexivity. }
  assert (0 < strlen ("LED " +:+ on_off on) <= BeamLink.mtu e - 3) as Hfit.
  { clear -Hmtu. generalize on. intros [];
      unfold strlen, on_off; rewrite length_append; cbn [String.length]; lia. }
  assert (3 <= BeamLink.mtu e <= UINT16_MAX) as Hmtu3 by lia.
  pose proof (notify_fits ("LED " +:+ on_off on)
                (BeamLink.set_messagesReceived
                   (incr32 (BeamLink.messagesReceived b)) b)
                (BeamLink.env_log_handler "led:toggle" e)
                Hi Hc Hd Hmtu3 Hfit) as Hsend.
  split; [| split; [| split]].
  - rewrite Hwrite. cbn [BeamLink.send_replies]. rewrite Hsend. reflexivity.
  - rewrite Hwrite. cbn [BeamLink.send_replies]. rewrite Hsend. reflexivity.
  - intros message. unfold handler.
    repeat match goal with
           | |- context [String.eqb message ?c] => destruct (String.eqb message c)
           end;
      cbv beta iota zeta delta [State_get State initialize snd fst];
      eexists; (split; [reflexivity |]);
      intros Hr; apply (f_equal String.length) in Hr;
      rewrite ?length_append in Hr; cbn [String.length] in Hr; lia.
  - intros message Hnot. unfold handler.
    repeat match goal with
           | |- context [String.eqb message ?c] =>
               destruct (String.eqb_spec message c)
           end;
      first [ reflexivity
            | exfalso; apply Hnot; subst;
              repeat first [apply list_elem_of_here | apply list_elem_of_further] ].
Qed.

End TemplateFacts.

Section TemplateExamples.

Import NexState NexStateGlobal TemplateMain.
#[local] Existing Instance integral_floats.

(** The store of the template after [setup], and the engine serving a
    peer with the template's handler on it. *)
Lemma template_toggle_end_to_end_witness :
  let s := fst (run [OpSet KBool "ledOn" true 1; OpSet KBool "ledBlinking" false 2;
                     OpSet KBool "bleConnected" false 3]
                  (NexState_new led_config 0)) in
  let h := replies_of led_device 10 11 (Some s) in
  let b := BeamLink.onMessage (Some h) (fst BeamLink.linked) in
  let e := snd BeamLink.linked in
  get KBool "ledOn" false s = true /\
  BeamLink.notified (snd (BeamLink.onWrite "led:toggle" b e)) = ["LED OFF"] /\
  BeamLink.getErrors (fst (BeamLink.onWrite "led:toggle" b e)) = 0.
Proof.
  intros s h b e.
  split; [vm_compute; reflexivity |].
  destruct (template_toggle_end_to_end led_device 10 11 s b e
              eq_refl eq_refl eq_refl ltac:(by_running) eq_refl)
    as (_ & Hframe & Herr & _).
  split; [rewrite Hframe; vm_compute; reflexivity | rewrite Herr; reflexivity].
Defined.

End TemplateExamples.
